(** * gemini-code-plugin: the response-instruction protocol and its dispatcher

    A shallow embedding of [processInstruction] and of the 'prompt' message
    handler registered by [activate] (the revision that dispatches an array of
    instructions), together with the host capabilities they call:
    the workspace file store, the text-document store, the integrated
    terminal, the notification sink and the chat webview.

    Conventions of the embedding.
    - A JavaScript string is a [string], one character per code unit (code
      units below 256); a property read that may yield [undefined] is an
      [option string] ([None] is [undefined]).
    - What [JSON.parse] decodes is a [Payload]: null, a boolean, a number, a
      string, an array of such values, or an object.  An object is a finite
      map from property names to strings, read with [!!]: the instruction
      schema (the prompt text in [activate]) gives every field the type
      string, and field values of other JSON types are outside this model.
    - Asynchronous code is awaited step by step, so it is embedded as
      sequential code in a state-and-exception monad [Js] over a [World]
      that holds the open documents and the chronological list of host calls.
    - What the host answers (which file operation is rejected, and with which
      error value) is not code of the extension: it is a [Host] oracle the
      definitions are parameterised by, as is [JSON.parse]. *)

From Stdlib Require Import String Ascii.
From stdpp Require Import base option strings list gmap.

(** ** JavaScript strings *)

Module JSString.

(** the line feed written \n in the source *)
Definition LF : string := String "010"%char EmptyString.

Fixpoint startsWith (p s : string) : bool :=
  match p, s with
  | EmptyString, _ => true
  | String a p', String b s' => if Ascii.eqb a b then startsWith p' s' else false
  | String _ _, EmptyString => false
  end.

(** [hay.indexOf(needle)]: the least index at which [needle] occurs;
    [None] stands for the result -1 *)
Fixpoint indexOf (needle hay : string) : option nat :=
  if startsWith needle hay then Some 0
  else match hay with
       | EmptyString => None
       | String _ hay' => S <$> indexOf needle hay'
       end.

(** [s.slice(0, n)] and [s.slice(n)] *)
Fixpoint sliceTo (n : nat) (s : string) : string :=
  match n, s with
  | S n', String c s' => String c (sliceTo n' s')
  | _, _ => EmptyString
  end.

Fixpoint sliceFrom (n : nat) (s : string) : string :=
  match n, s with
  | S n', String _ s' => sliceFrom n' s'
  | _, _ => s
  end.

(** the white space and line terminators among the code units below 256:
    tab, line feed, vertical tab, form feed, carriage return, space and the
    no-break space *)
Definition isWhiteSpace (c : ascii) : bool :=
  let n := nat_of_ascii c in
  (n =? 32)%nat || ((9 <=? n)%nat && (n <=? 13)%nat) || (n =? 160)%nat.

Fixpoint trimStart (s : string) : string :=
  match s with
  | String c s' => if isWhiteSpace c then trimStart s' else s
  | EmptyString => EmptyString
  end.

Fixpoint trimEnd (s : string) : string :=
  match s with
  | String c s' =>
      match trimEnd s' with
      | EmptyString => if isWhiteSpace c then EmptyString else String c EmptyString
      | t => String c t
      end
  | EmptyString => EmptyString
  end.

Definition trim (s : string) : string := trimEnd (trimStart s).

(** the regular-expression class \w *)
Definition isWordChar (c : ascii) : bool :=
  let n := nat_of_ascii c in
  ((48 <=? n)%nat && (n <=? 57)%nat) || ((65 <=? n)%nat && (n <=? 90)%nat)
  || ((97 <=? n)%nat && (n <=? 122)%nat) || (n =? 95)%nat.

(** [Buffer.from(s, 'utf8')]: the UTF-8 bytes of [s], one byte for a code
    unit below 128 and two for the others *)
Fixpoint Buffer_from (s : string) : list Byte.byte :=
  match s with
  | EmptyString => []
  | String c s' =>
      let n := nat_of_ascii c in
      if (n <? 128)%nat then byte_of_ascii c :: Buffer_from s'
      else byte_of_ascii (ascii_of_nat (192 + n / 64))
           :: byte_of_ascii (ascii_of_nat (128 + n mod 64))
           :: Buffer_from s'
  end.

(** a template-literal hole [${v}] *)
Definition ToString (v : option string) : string :=
  match v with Some s => s | None => "undefined" end.

(** ToBoolean, as used by [if (v)] and [a && b] *)
Definition truthy (v : option string) : bool :=
  match v with
  | Some EmptyString => false
  | Some (String _ _) => true
  | None => false
  end.

(** [v !== undefined] *)
Definition defined (v : option string) : bool :=
  match v with Some _ => true | None => false end.

(** [v === lit] for a string literal [lit] *)
Definition strictEq (v : option string) (lit : string) : bool :=
  match v with Some s => String.eqb s lit | None => false end.

End JSString.
Import JSString.

(** ** Regular expressions of the handler *)

Module RegExp.

(** The result of [text.match(re)] for a regular expression without the g
    flag: element 0 is the matched text, element i the text of the i-th
    capturing group.  Reading an index past the end gives [undefined]. *)
Definition MatchArray := list string.

(** [[\s\S]*?] followed by the literal [close]: the shortest prefix of [s]
    after which [close] begins, and what follows [close] *)
Fixpoint lazyUntil (close s : string) : option (string * string) :=
  if startsWith close s then Some (EmptyString, sliceFrom (String.length close) s)
  else match s with
       | EmptyString => None
       | String c s' =>
           match lazyUntil close s' with
           | Some (m, rest) => Some (String c m, rest)
           | None => None
           end
       end.

(** leftmost match: try the pattern at every start position in turn *)
Fixpoint search (matchAt : string → option MatchArray) (s : string)
  : option MatchArray :=
  match matchAt s with
  | Some m => Some m
  | None => match s with
            | EmptyString => None
            | String _ s' => search matchAt s'
            end
  end.

Definition fence : string := "```".
Definition jsonOpen : string := "```json" +:+ LF.
Definition jsonClose : string := LF +:+ "```".

(** /```json\n([\s\S]*?)\n```/ anchored at the start of [s]: one capturing
    group, the interior of the block *)
Definition jsonBlockAt (s : string) : option MatchArray :=
  if startsWith jsonOpen s then
    match lazyUntil jsonClose (sliceFrom (String.length jsonOpen) s) with
    | Some (interior, _) => Some [jsonOpen +:+ interior +:+ jsonClose; interior]
    | None => None
    end
  else None.

Definition jsonBlockRegex (text : string) : option MatchArray :=
  search jsonBlockAt text.

(** the longest run of \w at the start of [s], and the rest *)
Fixpoint spanWord (s : string) : string * string :=
  match s with
  | String c s' =>
      if isWordChar c then let '(w, r) := spanWord s' in (String c w, r)
      else (EmptyString, s)
  | EmptyString => (EmptyString, EmptyString)
  end.

(** /```(?:\w+\n)?[\s\S]*?```/ anchored at the start of [s].  The group
    (?: ) does not capture, so the match array has element 0 only.  The
    optional language line is tried first (\w+ can only be followed by \n
    at the end of the whole run of word characters); when the rest of the
    pattern fails after it, the match is retried without it. *)
Definition codeBlockAt (s : string) : option MatchArray :=
  if startsWith fence s then
    let body := sliceFrom (String.length fence) s in
    let '(w, after) := spanWord body in
    let withLanguage :=
      match w with
      | String _ _ =>
          if startsWith LF after then
            match lazyUntil fence (sliceFrom 1 after) with
            | Some (m, _) => Some [fence +:+ w +:+ LF +:+ m +:+ fence]
            | None => None
            end
          else None
      | EmptyString => None
      end in
    match withLanguage with
    | Some m => Some m
    | None =>
        match lazyUntil fence body with
        | Some (m, _) => Some [fence +:+ m +:+ fence]
        | None => None
        end
    end
  else None.

Definition codeBlockRegex (text : string) : option MatchArray :=
  search codeBlockAt text.

End RegExp.
Import RegExp.

(** ** The host: calls, world and oracle *)

(** a value caught by [catch (e: any)]: the properties the code reads *)
Record JsError := { code : option string; message : option string }.

(** [vscode.Uri.file(path)] *)
Inductive Uri := Uri_file (fsPath : string).

Definition fsPath (u : Uri) : string := let 'Uri_file p := u in p.

(** one change recorded by the callback of [editor.edit]; positions are the
    character offsets that [document.positionAt] was given *)
Inductive TextEdit :=
| replace (startPos endPos : nat) (newText : string)
| insert (position : nat) (newText : string).

(** every call the extension makes on a host collaborator *)
Inductive Call :=
| fs_delete (uri : Uri)
| fs_rename (oldUri newUri : Uri)
| fs_writeFile (uri : Uri) (content : list Byte.byte)
| openTextDocument (uri : Uri)
| showTextDocument (document : Uri)
| editor_edit (document : Uri) (change : TextEdit)
| createTerminal (name : string)
| terminal_show
| terminal_sendText (text : string)
| showInformationMessage (msg : string)
| showWarningMessage (msg : string)
| showErrorMessage (msg : string)
| postMessage (command text : string)
| console_error (msg : string) (err : JsError)
| generateContent (prompt : string).

(** [vscode.window.activeTextEditor]: its document and [selection.active] *)
Record TextEditor := { editor_document : Uri; selection_active : nat }.

Record World := {
  documents : gmap string string;          (* text of each document, by path *)
  activeTextEditor : option TextEditor;
  calls : list Call                        (* oldest first *)
}.

(** what the host answers; [None] is a promise that resolves *)
Record Host := {
  host_generateContent : World → string → JsError + string;
  host_delete : World → Uri → option JsError;
  host_rename : World → Uri → Uri → option JsError;
  host_writeFile : World → Uri → list Byte.byte → option JsError;
  host_openError : World → Uri → JsError;
  host_showTextDocument : World → Uri → option JsError;
  host_edit : World → Uri → TextEdit → JsError + bool
}.

(** what [JSON.parse] returns: any JSON value, an object having
    string-valued properties; a number is kept as its JSON text *)
#[warnings="-register-all"]
Inductive Payload :=
| JArray (elements : list Payload)
| JObject (properties : gmap string string)
| JString (s : string)
| JNumber (literal : string)
| JBoolean (b : bool)
| JNull.

(** the TypeError thrown by a property read on null *)
Definition nullTypeError : JsError :=
  {| code := None;
     message := Some "Cannot read properties of null (reading 'action')" |}.

(** ** The monad of awaited code *)

Inductive Completion (A : Type) :=
| Normal (a : A)
| Throw (e : JsError).
Arguments Normal {A} a.
Arguments Throw {A} e.

Definition Js (A : Type) : Type := World → Completion A * World.

#[export] Instance Js_ret : MRet Js := λ A a w, (Normal a, w).

#[export] Instance Js_bind : MBind Js := λ A B f m w,
  match m w with
  | (Normal a, w') => f a w'
  | (Throw e, w') => (Throw e, w')
  end.

Definition throw {A} (e : JsError) : Js A := λ w, (Throw e, w).

(** [try { body } catch (e) { handler }] *)
Definition tryCatch {A} (body : Js A) (handler : JsError → Js A) : Js A := λ w,
  match body w with
  | (Normal a, w') => (Normal a, w')
  | (Throw e, w') => handler e w'
  end.

(** an async call that is not awaited: a rejection of its promise is not
    thrown into the caller *)
Definition notAwaited (body : Js unit) : Js unit := λ w,
  (Normal (), (body w).2).

Definition record (c : Call) (w : World) : World :=
  {| documents := documents w;
     activeTextEditor := activeTextEditor w;
     calls := calls w ++ [c] |}.

Definition call (c : Call) : Js unit := λ w, (Normal (), record c w).

Definition settle (outcome : option JsError) : Js unit :=
  match outcome with
  | None => mret ()
  | Some e => throw e
  end.

Definition exec {A} (m : Js A) (w : World) : World := (m w).2.
Definition completion {A} (m : Js A) (w : World) : Completion A := (m w).1.

(** [for (const x of l) { await body(x); }] *)
Fixpoint forOf {A} (l : list A) (body : A → Js unit) : Js unit :=
  match l with
  | [] => mret ()
  | x :: l' => body x ;; forOf l' body
  end.

(** the text left by one change *)
Definition applyEdit (change : TextEdit) (text : string) : string :=
  match change with
  | replace startPos endPos newText => sliceTo startPos text +:+ newText +:+ sliceFrom endPos text
  | insert position newText => sliceTo position text +:+ newText +:+ sliceFrom position text
  end.

Definition setText (path text : string) (w : World) : World :=
  {| documents := <[path := text]> (documents w);
     activeTextEditor := activeTextEditor w;
     calls := calls w |}.

(** ** The extension *)

Section Extension.

Context (host : Host).

(** [JSON.parse]: the decoded payload, or the SyntaxError it throws *)
Variable JSON_parse : string → JsError + Payload.

(** *** Host capabilities, as the extension calls them *)

Definition workspace_fs_delete (uri : Uri) : Js unit := λ w,
  settle (host_delete host w uri) (record (fs_delete uri) w).

Definition workspace_fs_rename (oldUri newUri : Uri) : Js unit := λ w,
  settle (host_rename host w oldUri newUri) (record (fs_rename oldUri newUri) w).

Definition workspace_fs_writeFile (uri : Uri) (content : list Byte.byte) : Js unit := λ w,
  settle (host_writeFile host w uri content) (record (fs_writeFile uri content) w).

(** resolves with the document when the store has one at that path *)
Definition workspace_openTextDocument (uri : Uri) : Js Uri := λ w,
  match documents w !! fsPath uri with
  | Some _ => (Normal uri, record (openTextDocument uri) w)
  | None => (Throw (host_openError host w uri), record (openTextDocument uri) w)
  end.

(** resolves with an editor on the document.  In the host that editor also
    becomes the active one; [activeTextEditor] is read by the insertion
    branch of the handler only, in a turn in which no document is shown, and
    the model leaves it as it is. *)
Definition window_showTextDocument (document : Uri) : Js Uri := λ w,
  (settle (host_showTextDocument host w document) ;; mret document)
    (record (showTextDocument document) w).

Definition getText (document : Uri) : Js string := λ w,
  (Normal (default EmptyString (documents w !! fsPath document)), w).

(** [document.positionAt(offset)]: the position of that offset, an offset
    past the end being adjusted to the end *)
Definition positionAt (document : Uri) (offset : nat) : Js nat :=
  fullText ← getText document;
  mret (Nat.min offset (String.length fullText)).

(** [editor.edit(cb)] where [cb] records one change: resolves with whether
    the change was applied *)
Definition edit (editor : Uri) (change : TextEdit) : Js bool := λ w,
  match host_edit host w editor change with
  | inl e => (Throw e, record (editor_edit editor change) w)
  | inr false => (Normal false, record (editor_edit editor change) w)
  | inr true =>
      (Normal true,
       setText (fsPath editor)
         (applyEdit change (default EmptyString (documents w !! fsPath editor)))
         (record (editor_edit editor change) w))
  end.

Definition model_generateContent (prompt : string) : Js string := λ w,
  match host_generateContent host w prompt with
  | inl e => (Throw e, record (generateContent prompt) w)
  | inr text => (Normal text, record (generateContent prompt) w)
  end.

Definition parse (text : string) : Js Payload :=
  match JSON_parse text with
  | inl e => throw e
  | inr v => mret v
  end.

(** *** processInstruction *)

(** the switch on [instruction.action]; the [panel] argument of the source is
    not used by the function *)
Definition processInstruction (instruction : gmap string string) : Js unit :=
  let action := instruction !! "action" in
  let filePath := instruction !! "filePath" in
  let oldPath := instruction !! "oldPath" in
  let newPath := instruction !! "newPath" in
  let content := instruction !! "content" in
  let oldString := instruction !! "oldString" in
  let newString := instruction !! "newString" in
  let command := instruction !! "command" in
  if strictEq action "deleteFile" then
    if truthy filePath then
      let uri := Uri_file (ToString filePath) in
      tryCatch
        (workspace_fs_delete uri ;;
         call (showInformationMessage
                 ("File " +:+ ToString filePath +:+ " deleted successfully.")))
        (λ e,
         call (showErrorMessage
                 ("Error deleting file " +:+ ToString filePath +:+ ": "
                  +:+ ToString (message e))))
    else
      call (showWarningMessage "Delete file instruction missing filePath.")
  else if strictEq action "renameFile" then
    if truthy oldPath && truthy newPath then
      let oldUri := Uri_file (ToString oldPath) in
      let newUri := Uri_file (ToString newPath) in
      tryCatch
        (workspace_fs_rename oldUri newUri ;;
         call (showInformationMessage
                 ("File " +:+ ToString oldPath +:+ " renamed to "
                  +:+ ToString newPath +:+ " successfully.")))
        (λ e,
         call (showErrorMessage
                 ("Error renaming file from " +:+ ToString oldPath +:+ " to "
                  +:+ ToString newPath +:+ ": " +:+ ToString (message e))))
    else
      call (showWarningMessage "Rename file instruction missing oldPath or newPath.")
  else if strictEq action "createFile" then
    if truthy filePath && defined content then
      let uri := Uri_file (ToString filePath) in
      tryCatch
        (workspace_fs_writeFile uri (Buffer_from (ToString content)) ;;
         call (showInformationMessage
                 ("File " +:+ ToString filePath +:+ " created successfully.")))
        (λ e,
         if strictEq (code e) "EEXIST" then
           call (showErrorMessage
                   ("File creation failed: " +:+ ToString filePath
                    +:+ " already exists."))
         else if strictEq (code e) "ENOENT" then
           call (showErrorMessage
                   ("File creation failed: Directory for " +:+ ToString filePath
                    +:+ " does not exist."))
         else
           call (showErrorMessage
                   ("Error creating file " +:+ ToString filePath +:+ ": "
                    +:+ ToString (message e))))
    else mret ()
  else if strictEq action "modifyFile" then
    if truthy filePath && defined oldString && defined newString then
      let uri := Uri_file (ToString filePath) in
      tryCatch
        (document ← workspace_openTextDocument uri;
         editor ← window_showTextDocument document;
         fullText ← getText document;
         match indexOf (ToString oldString) fullText with
         | Some startIndex =>
             startPos ← positionAt document startIndex;
             endPos ← positionAt document
                        (startIndex + String.length (ToString oldString));
             edit editor (replace startPos endPos (ToString newString)) ;;
             call (showInformationMessage
                     ("File " +:+ ToString filePath +:+ " modified successfully."))
         | None =>
             call (showWarningMessage
                     ("File modification failed: Could not find the specified oldString in "
                      +:+ ToString filePath +:+ "."))
         end)
        (λ e,
         call (showErrorMessage
                 ("Error modifying file " +:+ ToString filePath +:+ ": "
                  +:+ ToString (message e))))
    else mret ()
  else if strictEq action "runShellCommand" then
    if truthy command then
      call (createTerminal "Gemini Command") ;;
      call terminal_show ;;
      call (terminal_sendText (ToString command)) ;;
      call (showInformationMessage ("Executing command: " +:+ ToString command))
    else
      call (showWarningMessage "Run shell command instruction missing command.")
  else
    call (showWarningMessage "AI provided an unrecognized or incomplete JSON instruction.").

(** [processInstruction] on any decoded value, its parameter having the type
    any.  The function begins by reading [instruction.action]: on null that
    read throws; a boolean, a number, a string and an array have none of
    the properties the function reads, so each read gives [undefined] as on
    an object without properties. *)
Definition processInstruction_any (instruction : Payload) : Js unit :=
  match instruction with
  | JNull => throw nullTypeError
  | JObject properties => processInstruction properties
  | JArray _ | JString _ | JNumber _ | JBoolean _ => processInstruction ∅
  end.

(** *** The 'prompt' message handler of [activate] *)

(** [m && m[1]] for the result [m] of [text.match(re)] *)
Definition group1 (m : option MatchArray) : option string := m ≫= (.!! 1%nat).

(** from the [postMessage] of the response to the end of the try block *)
Definition onResponse (text : string) : Js unit :=
  call (postMessage "response" text) ;;
  let jsonMatch := jsonBlockRegex text in
  if truthy (group1 jsonMatch) then
    tryCatch
      (instructions ← parse (ToString (group1 jsonMatch));
       match instructions with
       | JArray elements => forOf elements processInstruction_any
       | instruction =>
           call (showWarningMessage
                   "AI provided a single JSON object instead of an array for operations. Attempting to process as a single operation.") ;;
           notAwaited (processInstruction_any instruction)
       end)
      (λ jsonError,
       call (console_error "Error parsing AI JSON instruction(s):" jsonError) ;;
       call (showErrorMessage "AI provided malformed JSON instruction(s)."))
  else
    let codeMatch := codeBlockRegex text in
    if truthy (group1 codeMatch) then
      let codeToInsert := trim (ToString (group1 codeMatch)) in
      λ w,
        match activeTextEditor w with
        | Some editor =>
            (edit (editor_document editor)
               (insert (selection_active editor) codeToInsert) ;;
             call (showInformationMessage "Code inserted into active editor.")) w
        | None =>
            call (showWarningMessage "No active text editor found to insert code.") w
        end
    else mret ().

(** the handler, given the prompt it built from the user's text and the
    editor context *)
Definition onPrompt (fullPrompt : string) : Js unit :=
  tryCatch
    (text ← model_generateContent fullPrompt;
     onResponse text)
    (λ error,
     call (console_error "Error generating content or processing response:" error) ;;
     call (postMessage "response" ("Error: " +:+ ToString (message error)))).

End Extension.

(** ** Literal occurrence of one string in another *)

(** [needle] occurs in [hay] with [pre] before it and [post] after it *)
Definition occursAt (needle hay pre post : string) : Prop :=
  hay = pre +:+ needle +:+ post.

Definition occursIn (needle hay : string) : Prop :=
  ∃ pre post, occursAt needle hay pre post.

(** the occurrence after [pre] is the first one: no occurrence starts
    earlier *)
Definition firstOccurrence (needle hay pre post : string) : Prop :=
  occursAt needle hay pre post ∧
  ∀ pre' post', occursAt needle hay pre' post' →
                (String.length pre ≤ String.length pre')%nat.

(** ** Worlds that differ by calls only *)

(** [w] after the calls [cs], in that order, and nothing else *)
Definition recordAll (cs : list Call) (w : World) : World :=
  {| documents := documents w;
     activeTextEditor := activeTextEditor w;
     calls := calls w ++ cs |}.

(** ** Hosts and worlds of the examples *)

(** a host on which every operation succeeds and every edit is applied *)
Definition quietHost : Host :=
  {| host_generateContent := λ _ _, inr "Mock AI Response";
     host_delete := λ _ _, None;
     host_rename := λ _ _ _, None;
     host_writeFile := λ _ _ _, None;
     host_openError := λ _ _, {| code := None; message := Some "File not found" |};
     host_showTextDocument := λ _ _, None;
     host_edit := λ _ _ _, inr true |}.

(** a host whose file store rejects every operation with [e] *)
Definition rejectingHost (e : JsError) : Host :=
  {| host_generateContent := λ _ _, inr "Mock AI Response";
     host_delete := λ _ _, Some e;
     host_rename := λ _ _ _, Some e;
     host_writeFile := λ _ _ _, Some e;
     host_openError := λ _ _, e;
     host_showTextDocument := λ _ _, None;
     host_edit := λ _ _ _, inr true |}.

(** the rejection of the test suite, and one without a code *)
Definition eexist : JsError := {| code := Some "EEXIST"; message := None |}.
Definition denied : JsError := {| code := None; message := Some "Permission denied" |}.

(** no document open, no call made yet *)
Definition freshWorld : World :=
  {| documents := ∅; activeTextEditor := None; calls := [] |}.

(** one document, shown in the active editor *)
Definition worldWith (path text : string) : World :=
  {| documents := {[ path := text ]};
     activeTextEditor := Some {| editor_document := Uri_file path; selection_active := 0 |};
     calls := [] |}.

(** [w] once the document at [uri] has been opened and shown *)
Definition shown (uri : Uri) (w : World) : World :=
  recordAll [openTextDocument uri; showTextDocument uri] w.

(** the warning of each action for a required field that fails the test *)
Definition missingFieldWarnings : list (string * string * string) :=
  [ ("deleteFile", "filePath", "Delete file instruction missing filePath.");
    ("renameFile", "oldPath", "Rename file instruction missing oldPath or newPath.");
    ("renameFile", "newPath", "Rename file instruction missing oldPath or newPath.");
    ("runShellCommand", "command", "Run shell command instruction missing command.") ].

(** ** Response texts and a parser for the scenarios *)

Definition syntaxError : JsError :=
  {| code := None; message := Some "Unexpected end of JSON input" |}.

(** a fenced json block around [interior] *)
Definition jsonBlock (interior : string) : string :=
  jsonOpen +:+ interior +:+ jsonClose.

(** the text of a JSON string without escapes, and of an object member *)
Definition jsonString (s : string) : string :=
  String "034"%char s +:+ String "034"%char EmptyString.

Definition jsonMember (key value : string) : string :=
  jsonString key +:+ ":" +:+ jsonString value.

(** scenario D: an array of two instructions *)
Definition scenarioD_json : string :=
  "[{" +:+ jsonMember "action" "deleteFile" +:+ ","
  +:+ jsonMember "filePath" "/test/file-to-delete.js" +:+ "},{"
  +:+ jsonMember "action" "runShellCommand" +:+ ","
  +:+ jsonMember "command" "npm test" +:+ "}]".

Definition scenarioD : list (gmap string string) :=
  [ {[ "action" := "deleteFile"; "filePath" := "/test/file-to-delete.js" ]};
    {[ "action" := "runShellCommand"; "command" := "npm test" ]} ].

(** scenario A sent as a bare object *)
Definition scenarioA_json : string :=
  "{" +:+ jsonMember "action" "deleteFile" +:+ ","
  +:+ jsonMember "filePath" "/test/file-to-delete.js" +:+ "}".

Definition scenarioA : gmap string string :=
  {[ "action" := "deleteFile"; "filePath" := "/test/file-to-delete.js" ]}.

(** [JSON.parse] on the texts of the scenarios; every other text used below
    (the empty text, a text cut short) makes [JSON.parse] throw *)
Definition scenarioParser (text : string) : JsError + Payload :=
  if String.eqb text scenarioD_json then inr (JArray (JObject <$> scenarioD))
  else if String.eqb text scenarioA_json then inr (JObject scenarioA)
  else inl syntaxError.

(** ** Notifications *)



(** ** The actions and properties the dispatcher knows *)

(** the values of [instruction.action] that have a case in the switch *)
Definition recognizedActions : list string :=
  ["deleteFile"; "renameFile"; "createFile"; "modifyFile"; "runShellCommand"].

(** the properties of an instruction that the dispatcher reads *)
Definition instructionFields : list string :=
  ["action"; "filePath"; "oldPath"; "newPath"; "content"; "oldString";
   "newString"; "command"].


(** ** Texts without a backtick *)

Fixpoint noBacktick (s : string) : bool :=
  match s with
  | EmptyString => true
  | String c s' => negb (Ascii.eqb c "`"%char) && noBacktick s'
  end.


(** ** The calls of the code-insertion branch *)

(** the edit and the two messages of the branch that inserts a code block *)
Definition insertionCall (c : Call) : bool :=
  match c with
  | editor_edit _ (insert _ _) => true
  | showInformationMessage msg => String.eqb msg "Code inserted into active editor."
  | showWarningMessage msg =>
      String.eqb msg "No active text editor found to insert code."
  | _ => false
  end.

(** ** A json block with Windows line ends *)

(** carriage return and line feed *)
Definition CRLF : string := String "013"%char LF.

Definition jsonBlockCRLF (interior : string) : string :=
  "```json" +:+ CRLF +:+ interior +:+ CRLF +:+ "```".

(** ** The path module of the test setup *)

Module PathMock.

(** [(...args) => args.join('/')] *)
Fixpoint join (args : list string) : string :=
  match args with
  | [] => EmptyString
  | [a] => a
  | a :: rest => a +:+ "/" +:+ join rest
  end.

(** [s.replace(pattern, '')] for a string [pattern]: the first occurrence of
    [pattern] in [s] is taken out *)
Definition removeFirst (pattern s : string) : string :=
  match indexOf pattern s with
  | Some i => sliceTo i s +:+ sliceFrom (i + String.length pattern) s
  | None => s
  end.

(** [s.replace(/^\//, '')] *)
Definition removeLeadingSlash (s : string) : string :=
  match s with
  | String c s' => if Ascii.eqb c "/"%char then s' else s
  | EmptyString => EmptyString
  end.

(** [(from, to) => to.replace(from, '').replace(/^\//, '')] *)
Definition relative (from to : string) : string :=
  removeLeadingSlash (removeFirst from to).

End PathMock.

(** ** One more host *)

(** a host whose editor resolves every edit with false, applying none *)
Definition refusingHost : Host :=
  {| host_generateContent := λ _ _, inr "Mock AI Response";
     host_delete := λ _ _, None;
     host_rename := λ _ _ _, None;
     host_writeFile := λ _ _ _, None;
     host_openError := λ _ _, {| code := None; message := Some "File not found" |};
     host_showTextDocument := λ _ _, None;
     host_edit := λ _ _ _, inr false |}.

(** ** A batch with an element that is skipped *)



(** ** A batch with a null element *)




(** ** The elements of a batch *)

(** the elements before the first null: those the loop dispatches *)
Fixpoint untilNull (elements : list Payload) : list Payload :=
  match elements with
  | [] => []
  | JNull :: _ => []
  | element :: rest => element :: untilNull rest
  end.

Fixpoint hasNull (elements : list Payload) : bool :=
  match elements with
  | [] => false
  | JNull :: _ => true
  | _ :: rest => hasNull rest
  end.


(** * Properties *)

(** ** Strings: literal occurrence *)

Section StringFacts.

Implicit Types s p pre post needle hay : string.

Lemma append_nil s : EmptyString +:+ s = s.
Proof. reflexivity. Qed.

Lemma append_cons c s1 s2 : String c s1 +:+ s2 = String c (s1 +:+ s2).
Proof. reflexivity. Qed.

Lemma append_assoc s1 s2 s3 : (s1 +:+ s2) +:+ s3 = s1 +:+ (s2 +:+ s3).
Proof.
  induction s1 as [|c s1 IH]; [done |].
  by rewrite !append_cons, IH.
Qed.

Lemma length_append s1 s2 :
  String.length (s1 +:+ s2) = String.length s1 + String.length s2.
Proof.
  induction s1 as [|c s1 IH]; [done |].
  rewrite append_cons. simpl. by rewrite IH.
Qed.

Lemma startsWith_append p s : startsWith p (p +:+ s) = true.
Proof.
  induction p as [|c p IH]; [done |].
  rewrite append_cons. simpl. by rewrite Ascii.eqb_refl.
Qed.

(** [startsWith] decides whether [s] begins with the characters of [p] *)
Lemma startsWith_true p s : startsWith p s = true ↔ ∃ r, s = p +:+ r.
Proof.
  split.
  - revert s. induction p as [|c p IH]; intros s H.
    + by exists s.
    + destruct s as [|b s]; [done |]. simpl in H.
      destruct (Ascii.eqb_spec c b) as [->|]; [| done].
      destruct (IH _ H) as [r ->]. by exists r.
  - intros [r ->]. apply startsWith_append.
Qed.

Lemma sliceTo_append pre s : sliceTo (String.length pre) (pre +:+ s) = pre.
Proof.
  induction pre as [|c pre IH]; [by destruct s |].
  rewrite append_cons. simpl. by rewrite IH.
Qed.

Lemma sliceFrom_append pre s : sliceFrom (String.length pre) (pre +:+ s) = s.
Proof.
  induction pre as [|c pre IH]; [by destruct s |].
  rewrite append_cons. by simpl.
Qed.

Lemma sliceTo_sliceFrom n s : sliceTo n s +:+ sliceFrom n s = s.
Proof.
  revert s. induction n as [|n IH]; intros [|c s]; try done.
  simpl. by rewrite append_cons, IH.
Qed.

Lemma indexOf_Some needle hay i :
  indexOf needle hay = Some i →
  ∃ pre post, firstOccurrence needle hay pre post ∧ String.length pre = i.
Proof.
  revert i. induction hay as [|c hay IH]; intros i.
  - simpl. destruct (startsWith needle EmptyString) eqn:E; [| done].
    intros [= <-]. apply startsWith_true in E as [r E].
    exists EmptyString, r. repeat split; simpl; [done | lia].
  - cbn [indexOf]. destruct (startsWith needle (String c hay)) eqn:E.
    + intros [= <-]. apply startsWith_true in E as [r E].
      exists EmptyString, r. repeat split; simpl; [done | lia].
    + destruct (indexOf needle hay) as [j|] eqn:Ej; [| done].
      intros [= <-]. destruct (IH j eq_refl) as (pre & post & [Hocc Hmin] & Hlen).
      exists (String c pre), post. repeat split.
      * unfold occursAt in *. simpl. by rewrite Hocc.
      * intros [|c' pre'] post' Hocc'; unfold occursAt in Hocc'.
        -- simpl in Hocc'. assert (startsWith needle (String c hay) = true) as E'.
           { apply startsWith_true. by exists post'. }
           congruence.
        -- simpl in Hocc'. injection Hocc' as -> Hhay.
           simpl. specialize (Hmin pre' post' Hhay). lia.
      * simpl. by rewrite Hlen.
Qed.

Lemma indexOf_None needle hay :
  indexOf needle hay = None → ¬ occursIn needle hay.
Proof.
  induction hay as [|c hay IH].
  - simpl. destruct (startsWith needle EmptyString) eqn:E; [done |].
    intros _ (pre & post & Hocc). unfold occursAt in Hocc.
    destruct pre; [| done]. simpl in Hocc.
    assert (startsWith needle EmptyString = true); [| congruence].
    apply startsWith_true. by exists post.
  - cbn [indexOf]. destruct (startsWith needle (String c hay)) eqn:E; [done |].
    destruct (indexOf needle hay) eqn:Ej; [done |].
    intros _ (pre & post & Hocc). unfold occursAt in Hocc.
    destruct pre as [|c' pre]; simpl in Hocc.
    + assert (startsWith needle (String c hay) = true); [| congruence].
      apply startsWith_true. by exists post.
    + injection Hocc as -> Hhay. apply IH; [done |]. by exists pre, post.
Qed.

Lemma indexOf_occursIn needle hay :
  occursIn needle hay → is_Some (indexOf needle hay).
Proof.
  intros H. destruct (indexOf needle hay) eqn:E; [by eexists |].
  by apply indexOf_None in E.
Qed.

(** replacing the span of an occurrence keeps what is before and after *)
Lemma applyEdit_replace_occurrence needle hay pre post newText :
  occursAt needle hay pre post →
  applyEdit
    (replace (String.length pre) (String.length pre + String.length needle) newText)
    hay
  = pre +:+ newText +:+ post.
Proof.
  unfold occursAt. intros ->. unfold applyEdit.
  rewrite sliceTo_append. do 2 f_equal.
  rewrite <- length_append.
  rewrite <- (append_assoc pre needle post). apply sliceFrom_append.
Qed.

End StringFacts.

(** ** The monad *)

Section MonadFacts.

Implicit Types (w : World) (c : Call) (cs : list Call).

Lemma recordAll_nil w : recordAll [] w = w.
Proof. destruct w. unfold recordAll. simpl. by rewrite app_nil_r. Qed.

Lemma record_recordAll c w : record c w = recordAll [c] w.
Proof. reflexivity. Qed.

Lemma recordAll_recordAll cs1 cs2 w :
  recordAll cs2 (recordAll cs1 w) = recordAll (cs1 ++ cs2) w.
Proof. unfold recordAll. simpl. by rewrite app_assoc. Qed.

Lemma recordAll_cons c cs w : recordAll (c :: cs) w = recordAll cs (record c w).
Proof. by rewrite record_recordAll, recordAll_recordAll. Qed.

Lemma record_setText c path text w :
  record c (setText path text w) = setText path text (record c w).
Proof. reflexivity. Qed.

Lemma documents_recordAll cs w : documents (recordAll cs w) = documents w.
Proof. reflexivity. Qed.

Lemma calls_recordAll cs w : calls (recordAll cs w) = calls w ++ cs.
Proof. reflexivity. Qed.

Lemma call_run c w : call c w = (Normal (), record c w).
Proof. reflexivity. Qed.

Lemma bind_run {A B} (m : Js A) (k : A → Js B) w :
  (m ≫= k) w =
  match m w with
  | (Normal a, w') => k a w'
  | (Throw e, w') => (Throw e, w')
  end.
Proof. reflexivity. Qed.

Lemma bind_call {B} c (k : Js B) w : (call c ;; k) w = k (record c w).
Proof. reflexivity. Qed.

(** a try statement whose handler returns normally returns normally *)
Lemma tryCatch_returns (body : Js unit) handler w :
  (∀ e w', completion (handler e) w' = Normal ()) →
  completion (tryCatch body handler) w = Normal ().
Proof.
  intros H. unfold completion, tryCatch.
  destruct (body w) as [[[]|e] w']; [done |]. apply H.
Qed.

(** a loop whose body returns normally runs the body on every element, in
    order, each run starting in the world the previous one left *)
Lemma forOf_run {A} (l : list A) (body : A → Js unit) w :
  (∀ x w', completion (body x) w' = Normal ()) →
  forOf l body w = (Normal (), foldl (λ w' x, exec (body x) w') w l).
Proof.
  intros H. revert w. induction l as [|x l IH]; intros w; [done |].
  simpl. rewrite bind_run.
  specialize (H x w). unfold completion in H. unfold exec at 2.
  destruct (body x w) as [r w']. simpl in *. subst r. apply IH.
Qed.

End MonadFacts.

(** both sides are the same world once nested [record]s are flattened *)
Ltac same_world :=
  rewrite ?bind_call, ?call_run, ?record_setText, ?record_recordAll,
    ?recordAll_recordAll;
  reflexivity.

(** ** The dispatcher *)

Section Dispatcher.

Context (host : Host).
Implicit Types (instruction : gmap string string) (w : World).

Lemma truthy_Some s : s ≠ EmptyString → truthy (Some s) = true.
Proof. by destruct s. Qed.

Lemma truthy_false v : truthy v = false ↔ v = None ∨ v = Some EmptyString.
Proof.
  destruct v as [[|]|]; simpl; split; intros H;
    try done; try (destruct H; done); auto.
Qed.

Lemma truthy_delete instruction field :
  truthy (delete field instruction !! field) = false.
Proof. by rewrite lookup_delete_eq. Qed.

(** *** Fields that fail the truthiness test *)

Lemma deleteFile_falsy instruction w :
  instruction !! "action" = Some "deleteFile" →
  truthy (instruction !! "filePath") = false →
  processInstruction host instruction w =
    (Normal (), recordAll [showWarningMessage "Delete file instruction missing filePath."] w).
Proof.
  intros Ha Hf. unfold processInstruction. rewrite Ha, Hf. reflexivity.
Qed.

Lemma renameFile_falsy instruction w :
  instruction !! "action" = Some "renameFile" →
  truthy (instruction !! "oldPath") = false ∨ truthy (instruction !! "newPath") = false →
  processInstruction host instruction w =
    (Normal (),
     recordAll [showWarningMessage "Rename file instruction missing oldPath or newPath."] w).
Proof.
  intros Ha Hf. unfold processInstruction. rewrite Ha.
  assert (truthy (instruction !! "oldPath") && truthy (instruction !! "newPath") = false)
    as ->; [| reflexivity].
  destruct Hf as [-> | ->]; [done | apply andb_false_r].
Qed.

Lemma runShellCommand_falsy instruction w :
  instruction !! "action" = Some "runShellCommand" →
  truthy (instruction !! "command") = false →
  processInstruction host instruction w =
    (Normal (),
     recordAll [showWarningMessage "Run shell command instruction missing command."] w).
Proof.
  intros Ha Hf. unfold processInstruction. rewrite Ha, Hf. reflexivity.
Qed.

(** the same branches for [createFile] and [modifyFile] have no else *)
Lemma createFile_incomplete instruction w :
  instruction !! "action" = Some "createFile" →
  truthy (instruction !! "filePath") = false ∨ instruction !! "content" = None →
  processInstruction host instruction w = (Normal (), w).
Proof.
  intros Ha Hf. unfold processInstruction. rewrite Ha.
  assert (truthy (instruction !! "filePath") && defined (instruction !! "content") = false)
    as ->; [| reflexivity].
  destruct Hf as [-> | ->]; [done | apply andb_false_r].
Qed.

Lemma modifyFile_incomplete instruction w :
  instruction !! "action" = Some "modifyFile" →
  truthy (instruction !! "filePath") = false ∨ instruction !! "oldString" = None
  ∨ instruction !! "newString" = None →
  processInstruction host instruction w = (Normal (), w).
Proof.
  intros Ha Hf. unfold processInstruction. rewrite Ha.
  assert (truthy (instruction !! "filePath") && defined (instruction !! "oldString")
          && defined (instruction !! "newString") = false) as ->; [| reflexivity].
  destruct Hf as [-> | [-> | ->]]; simpl; by rewrite ?andb_false_r.
Qed.

(** *** modifyFile on an open document *)

Lemma indexOf_bound needle hay i :
  indexOf needle hay = Some i →
  i + String.length needle ≤ String.length hay.
Proof.
  intros H. apply indexOf_Some in H as (pre & post & [Hocc _] & <-).
  unfold occursAt in Hocc. subst hay. rewrite !length_append. lia.
Qed.

Lemma getText_run document w text :
  documents w !! fsPath document = Some text →
  getText document w = (Normal text, w).
Proof. intros H. unfold getText. by rewrite H. Qed.

Lemma positionAt_run document w text offset :
  documents w !! fsPath document = Some text →
  offset ≤ String.length text →
  positionAt document offset w = (Normal offset, w).
Proof.
  intros H Hle. unfold positionAt. rewrite bind_run, (getText_run _ _ _ H).
  unfold mret, Js_ret. by rewrite Nat.min_l.
Qed.

(** what the try block of the modifyFile case does once the instruction
    has passed the field test and the document has been shown *)
Lemma modifyFile_run instruction w filePath oldString newString text :
  instruction !! "action" = Some "modifyFile" →
  instruction !! "filePath" = Some filePath →
  filePath ≠ EmptyString →
  instruction !! "oldString" = Some oldString →
  instruction !! "newString" = Some newString →
  documents w !! filePath = Some text →
  host_showTextDocument host (record (openTextDocument (Uri_file filePath)) w)
    (Uri_file filePath) = None →
  let uri := Uri_file filePath in
  let after := shown uri w in
  processInstruction host instruction w =
    match indexOf oldString text with
    | Some startIndex =>
        let change :=
          replace startIndex (startIndex + String.length oldString) newString in
        let modified :=
          showInformationMessage ("File " +:+ filePath +:+ " modified successfully.") in
        match host_edit host after uri change with
        | inr true =>
            (Normal (),
             setText filePath (applyEdit change text)
               (recordAll [editor_edit uri change; modified] after))
        | inr false =>
            (Normal (), recordAll [editor_edit uri change; modified] after)
        | inl e =>
            (Normal (),
             recordAll
               [editor_edit uri change;
                showErrorMessage
                  ("Error modifying file " +:+ filePath +:+ ": "
                   +:+ ToString (message e))] after)
        end
    | None =>
        (Normal (),
         recordAll
           [showWarningMessage
              ("File modification failed: Could not find the specified oldString in "
               +:+ filePath +:+ ".")] after)
    end.
Proof.
  intros Ha Hf Hne Ho Hn Hdoc Hshow uri after. unfold shown in after.
  unfold processInstruction. rewrite Ha, Hf, Ho, Hn, (truthy_Some _ Hne).
  simpl. unfold tryCatch. rewrite bind_run.
  unfold workspace_openTextDocument. simpl. rewrite Hdoc.
  rewrite bind_run. unfold window_showTextDocument. rewrite Hshow. simpl.
  fold uri.
  replace (record (showTextDocument uri) (record (openTextDocument uri) w))
    with after by (by rewrite !record_recordAll, recordAll_recordAll).
  assert (documents after !! fsPath uri = Some text) as Hdoc' by done.
  rewrite bind_run, (getText_run _ _ _ Hdoc').
  destruct (indexOf oldString text) as [i|] eqn:Ei; [| reflexivity].
  pose proof (indexOf_bound _ _ _ Ei) as Hb.
  rewrite bind_run, (positionAt_run _ _ _ _ Hdoc') by lia.
  rewrite bind_run, (positionAt_run _ _ _ _ Hdoc') by lia.
  rewrite bind_run. unfold edit.
  destruct (host_edit host after uri _) as [e|[|]]; simpl;
    rewrite ?Hdoc; same_world.
Qed.

(** C3. A modifyFile instruction whose filePath, oldString and newString
    pass the field test, on a document whose text contains oldString, with
    a host that shows the document and applies the edit: the dispatcher
    replaces the first literal occurrence of oldString by newString (the
    text before and after that occurrence is kept character for character,
    no earlier occurrence exists) and reports the info message naming the
    file. *)
Theorem modifyFile_replaces_first_occurrence
    instruction w filePath oldString newString text :
  instruction !! "action" = Some "modifyFile" →
  instruction !! "filePath" = Some filePath →
  filePath ≠ EmptyString →
  instruction !! "oldString" = Some oldString →
  instruction !! "newString" = Some newString →
  documents w !! filePath = Some text →
  occursIn oldString text →
  host_showTextDocument host (record (openTextDocument (Uri_file filePath)) w)
    (Uri_file filePath) = None →
  (∀ change,
     host_edit host (shown (Uri_file filePath) w) (Uri_file filePath) change
     = inr true) →
  ∃ pre post,
    firstOccurrence oldString text pre post ∧
    processInstruction host instruction w =
      (Normal (),
       setText filePath (pre +:+ newString +:+ post)
         (recordAll
            [editor_edit (Uri_file filePath)
               (replace (String.length pre)
                  (String.length pre + String.length oldString) newString);
             showInformationMessage
               ("File " +:+ filePath +:+ " modified successfully.")]
            (shown (Uri_file filePath) w))).
Proof.
  intros Ha Hf Hne Ho Hn Hdoc Hocc Hshow Hedit.
  destruct (indexOf_occursIn _ _ Hocc) as [i Ei].
  destruct (indexOf_Some _ _ _ Ei) as (pre & post & Hfirst & <-).
  exists pre, post. split; [done |].
  rewrite (modifyFile_run _ _ _ _ _ _ Ha Hf Hne Ho Hn Hdoc Hshow).
  cbv zeta. rewrite Ei, Hedit.
  by rewrite (applyEdit_replace_occurrence _ _ _ _ _ (proj1 Hfirst)).
Qed.

(** C7. A modifyFile instruction whose three fields pass the field test, on
    a document whose text does not contain oldString: no edit is made and
    the only notification is the warning naming the file.  Consequently,
    after a first application that replaced the occurrence, when oldString
    does not occur in the new text, a second application of the same
    instruction gives that warning and leaves the text as it is. *)
Theorem modifyFile_not_found
    instruction w filePath oldString newString text :
  instruction !! "action" = Some "modifyFile" →
  instruction !! "filePath" = Some filePath →
  filePath ≠ EmptyString →
  instruction !! "oldString" = Some oldString →
  instruction !! "newString" = Some newString →
  documents w !! filePath = Some text →
  (∀ w', host_showTextDocument host w' (Uri_file filePath) = None) →
  let notFound :=
    showWarningMessage
      ("File modification failed: Could not find the specified oldString in "
       +:+ filePath +:+ ".") in
  (¬ occursIn oldString text →
   processInstruction host instruction w =
     (Normal (), recordAll [notFound] (shown (Uri_file filePath) w)))
  ∧
  (occursIn oldString text →
   (∀ w' change, host_edit host w' (Uri_file filePath) change = inr true) →
   ∃ pre post,
     firstOccurrence oldString text pre post ∧
     let w1 := exec (processInstruction host instruction) w in
     documents w1 !! filePath = Some (pre +:+ newString +:+ post) ∧
     (¬ occursIn oldString (pre +:+ newString +:+ post) →
      processInstruction host instruction w1 =
        (Normal (), recordAll [notFound] (shown (Uri_file filePath) w1)) ∧
      documents (exec (processInstruction host instruction) w1) = documents w1)).
Proof.
  intros Ha Hf Hne Ho Hn Hdoc Hshow notFound.
  assert (∀ w0 text0,
            documents w0 !! filePath = Some text0 →
            ¬ occursIn oldString text0 →
            processInstruction host instruction w0 =
              (Normal (), recordAll [notFound] (shown (Uri_file filePath) w0)))
    as Habsent.
  { intros w0 text0 Hdoc0 Hno.
    rewrite (modifyFile_run _ _ _ _ _ _ Ha Hf Hne Ho Hn Hdoc0 (Hshow _)).
    cbv zeta. destruct (indexOf oldString text0) as [i|] eqn:Ei; [| done].
    destruct Hno. apply indexOf_Some in Ei as (pre & post & [Hocc _] & _).
    by exists pre, post. }
  split; [by apply Habsent |].
  intros Hocc Hedit.
  destruct (indexOf_occursIn _ _ Hocc) as [i Ei].
  destruct (indexOf_Some _ _ _ Ei) as (pre & post & Hfirst & <-).
  exists pre, post. split; [done |]. cbv zeta.
  assert (documents (exec (processInstruction host instruction) w) !! filePath
          = Some (pre +:+ newString +:+ post)) as Hdoc1.
  { unfold exec.
    rewrite (modifyFile_run _ _ _ _ _ _ Ha Hf Hne Ho Hn Hdoc (Hshow _)).
    cbv zeta. rewrite Ei, Hedit.
    rewrite (applyEdit_replace_occurrence _ _ _ _ _ (proj1 Hfirst)).
    simpl. apply lookup_insert_eq. }
  split; [done |]. intros Hno.
  pose proof (Habsent _ _ Hdoc1 Hno) as Hrun.
  split; [done |]. unfold exec at 1. by rewrite Hrun.
Qed.

(** C8. A deleteFile instruction whose filePath passes the field test makes
    one delete call on the file store with the Uri of that path; when the
    host resolves it the only notification is the info message naming the
    file, when the host rejects it the only notification is an error
    message carrying the message of the rejection.  For the instruction
    of scenario A, with a host that resolves the delete, the info message
    is the one of the scenario. *)
Theorem deleteFile_dispatch instruction w filePath :
  instruction !! "action" = Some "deleteFile" →
  instruction !! "filePath" = Some filePath →
  filePath ≠ EmptyString →
  processInstruction host instruction w =
    match host_delete host w (Uri_file filePath) with
    | None =>
        (Normal (),
         recordAll
           [fs_delete (Uri_file filePath);
            showInformationMessage
              ("File " +:+ filePath +:+ " deleted successfully.")] w)
    | Some e =>
        (Normal (),
         recordAll
           [fs_delete (Uri_file filePath);
            showErrorMessage
              ("Error deleting file " +:+ filePath +:+ ": "
               +:+ ToString (message e))] w)
    end
  ∧
  (host_delete host w (Uri_file "/test/file-to-delete.js") = None →
   processInstruction host
     {[ "action" := "deleteFile"; "filePath" := "/test/file-to-delete.js" ]} w =
     (Normal (),
      recordAll
        [fs_delete (Uri_file "/test/file-to-delete.js");
         showInformationMessage "File /test/file-to-delete.js deleted successfully."]
        w)).
Proof.
  assert (∀ i fp,
            i !! "action" = Some "deleteFile" → i !! "filePath" = Some fp →
            fp ≠ EmptyString →
            processInstruction host i w =
              match host_delete host w (Uri_file fp) with
              | None =>
                  (Normal (),
                   recordAll
                     [fs_delete (Uri_file fp);
                      showInformationMessage
                        ("File " +:+ fp +:+ " deleted successfully.")] w)
              | Some e =>
                  (Normal (),
                   recordAll
                     [fs_delete (Uri_file fp);
                      showErrorMessage
                        ("Error deleting file " +:+ fp +:+ ": "
                         +:+ ToString (message e))] w)
              end) as Hgen.
  { intros i fp Ha Hf Hne. unfold processInstruction.
    rewrite Ha, Hf, (truthy_Some _ Hne). simpl.
    unfold tryCatch, workspace_fs_delete. rewrite bind_run.
    destruct (host_delete host w (Uri_file fp)); simpl; same_world. }
  intros Ha Hf Hne. split; [by apply Hgen |].
  intros Hok. rewrite (Hgen _ "/test/file-to-delete.js"); [| done ..].
  by rewrite Hok.
Qed.

(** C4. A createFile instruction whose filePath and content pass the field
    test, with a host that rejects the write with [e]: the write is
    attempted once and exactly one error notification follows, chosen by
    the code of [e]: EEXIST gives the already-exists message, ENOENT the
    missing-directory message, anything else the message that carries the
    message of [e]. *)
Theorem createFile_write_failure instruction w filePath content e :
  instruction !! "action" = Some "createFile" →
  instruction !! "filePath" = Some filePath →
  filePath ≠ EmptyString →
  instruction !! "content" = Some content →
  host_writeFile host w (Uri_file filePath) (Buffer_from content) = Some e →
  ∃ msg,
    processInstruction host instruction w =
      (Normal (),
       recordAll
       [fs_writeFile (Uri_file filePath) (Buffer_from content); showErrorMessage msg] w)
    ∧ (code e = Some "EEXIST" →
       msg = "File creation failed: " +:+ filePath +:+ " already exists.")
    ∧ (code e = Some "ENOENT" →
       msg = "File creation failed: Directory for " +:+ filePath +:+ " does not exist.")
    ∧ (code e ≠ Some "EEXIST" → code e ≠ Some "ENOENT" →
       msg = "Error creating file " +:+ filePath +:+ ": " +:+ ToString (message e)).
Proof.
  intros Ha Hf Hne Hc Hfail.
  assert (∀ lit, strictEq (code e) lit = bool_decide (code e = Some lit)) as Heq.
  { intros lit. unfold strictEq. destruct (code e) as [c|]; [| done].
    destruct (String.eqb_spec c lit) as [->|Hn].
    - by rewrite bool_decide_eq_true_2.
    - rewrite bool_decide_eq_false_2; [done | congruence]. }
  unfold processInstruction. rewrite Ha, Hf, Hc, (truthy_Some _ Hne). simpl.
  unfold tryCatch, workspace_fs_writeFile. rewrite bind_run, Hfail. simpl.
  rewrite !Heq.
  case_bool_decide as H1; [| case_bool_decide as H2];
    rewrite call_run, !record_recordAll, !recordAll_recordAll;
    eexists; (split; [reflexivity |]); repeat split; intros; congruence.
Qed.

(** C10. For deleteFile, renameFile and runShellCommand, a required path or
    command field that is present and equal to the empty string is treated
    as a missing one: the dispatcher reports the missing-field warning of
    the action, makes no other call, and does exactly what it does on the
    instruction with that field removed. *)
Theorem empty_string_field_is_missing instruction w action field warning :
  (action, field, warning) ∈ missingFieldWarnings →
  instruction !! "action" = Some action →
  instruction !! field = Some EmptyString →
  processInstruction host instruction w =
    (Normal (), recordAll [showWarningMessage warning] w)
  ∧ processInstruction host (delete field instruction) w =
      processInstruction host instruction w.
Proof.
  intros Hin Ha Hempty.
  assert (delete field instruction !! "action" = Some action) as Ha'.
  { rewrite lookup_delete_ne; [done |].
    intros ->. rewrite Ha in Hempty. injection Hempty as ->.
    unfold missingFieldWarnings in Hin.
    repeat (apply elem_of_cons in Hin as [Hin | Hin]; [done |]).
    by apply elem_of_nil in Hin. }
  pose proof (truthy_delete instruction field) as Hgone.
  assert (truthy (instruction !! field) = false) as Hfalsy by by rewrite Hempty.
  unfold missingFieldWarnings in Hin.
  repeat (apply elem_of_cons in Hin as [Hin | Hin];
          [injection Hin as -> -> -> |]);
    [ rewrite !deleteFile_falsy
    | rewrite !renameFile_falsy
    | rewrite !renameFile_falsy
    | rewrite !runShellCommand_falsy
    | by apply elem_of_nil in Hin ];
    auto.
Qed.

(** C1 (the createFile and modifyFile cases, on the instructions of the
    test suite that leave out content and newString): the dispatcher
    returns without any notification and without any host call, where the
    tests expect the warnings naming the missing fields. *)
Theorem createFile_modifyFile_missing_field_silent w :
  processInstruction host
    {[ "action" := "createFile"; "filePath" := "/test/new-file.js" ]} w
  = (Normal (), w)
  ∧ processInstruction host
      {[ "action" := "modifyFile"; "filePath" := "/test/existing-file.js";
         "oldString" := "old content" ]} w
    = (Normal (), w).
Proof.
  split.
  - apply createFile_incomplete; [reflexivity | by right].
  - apply modifyFile_incomplete; [reflexivity | by right; right].
Qed.

(** *** Nothing escapes the dispatcher *)

Lemma processInstruction_returns instruction w :
  completion (processInstruction host instruction) w = Normal ().
Proof.
  unfold processInstruction.
  repeat match goal with
         | |- context [if ?b then _ else _] => destruct b
         end;
    try reflexivity;
    apply tryCatch_returns; intros e w';
    repeat match goal with
           | |- context [if ?b then _ else _] => destruct b
           end;
    reflexivity.
Qed.

(** *** One notification per instruction *)


End Dispatcher.

(** ** The message handler *)

Section Handler.

Context (host : Host) (JSON_parse : string → JsError + Payload).
Implicit Types (text whole interior : string) (w : World).

(** *** What the two regular expressions capture *)

Lemma search_Some matchAt s m :
  search matchAt s = Some m → ∃ s', matchAt s' = Some m.
Proof.
  induction s as [|c s IH]; simpl.
  - destruct (matchAt EmptyString) eqn:E; [| done]. intros [= <-]. eauto.
  - destruct (matchAt (String c s)) eqn:E; [intros [= <-]; eauto | apply IH].
Qed.

(** the match array of the code-block expression has no element 1 *)
Lemma codeBlockRegex_group1 text : group1 (codeBlockRegex text) = None.
Proof.
  unfold group1. destruct (codeBlockRegex text) as [m|] eqn:E; [| done].
  apply search_Some in E as [s E]. unfold codeBlockAt in E.
  destruct (startsWith fence s); [| done].
  destruct (spanWord _) as [lang after].
  repeat case_match; by simplify_eq.
Qed.

Lemma jsonBlockRegex_group1 text whole interior :
  jsonBlockRegex text = Some [whole; interior] →
  group1 (jsonBlockRegex text) = Some interior.
Proof. by intros ->. Qed.

(** *** The branches of the handler *)

(** without a json block that passes the test, the handler posts the
    response to the chat and does nothing else, whatever code blocks the
    text has and whether or not an editor is active *)
Lemma onResponse_without_json text w :
  truthy (group1 (jsonBlockRegex text)) = false →
  onResponse host JSON_parse text w
  = (Normal (), recordAll [postMessage "response" text] w).
Proof.
  intros H. unfold onResponse. rewrite bind_call, H, codeBlockRegex_group1.
  reflexivity.
Qed.

(** on every value but null the dispatcher returns normally *)
Lemma processInstruction_any_returns (instruction : Payload) w :
  instruction ≠ JNull →
  completion (processInstruction_any host instruction) w = Normal ().
Proof.
  intros Hnot. destruct instruction; try done; apply processInstruction_returns.
Qed.



(** the loop of the handler: it dispatches the elements before the first
    null, in order, and throws at that null if there is one *)
Lemma forOf_any_run (elements : list Payload) w :
  forOf elements (processInstruction_any host) w =
    (if hasNull elements then Throw nullTypeError else Normal (),
     foldl (λ w' element, exec (processInstruction_any host element) w')
       w (untilNull elements)).
Proof.
  revert w. induction elements as [|element rest IH]; intros w; [done |].
  assert (element = JNull ∨ element ≠ JNull) as [-> | Hnot]
    by (destruct element; auto); [done |].
  assert (untilNull (element :: rest) = element :: untilNull rest
          ∧ hasNull (element :: rest) = hasNull rest) as [-> ->]
    by by destruct element.
  cbn [forOf foldl]. rewrite bind_run.
  pose proof (processInstruction_any_returns element w Hnot) as Hret.
  unfold completion in Hret. unfold exec at 2.
  destruct (processInstruction_any host element w) as [r w']. simpl in *.
  subst r. apply IH.
Qed.

Lemma onResponse_with_json text whole interior w :
  jsonBlockRegex text = Some [whole; interior] →
  interior ≠ EmptyString →
  onResponse host JSON_parse text w =
    let posted := record (postMessage "response" text) w in
    match JSON_parse interior with
    | inl jsonError =>
        (Normal (),
         recordAll
           [console_error "Error parsing AI JSON instruction(s):" jsonError;
            showErrorMessage "AI provided malformed JSON instruction(s)."]
           posted)
    | inr (JArray elements) =>
        let batch :=
          foldl (λ w' element, exec (processInstruction_any host element) w')
            posted (untilNull elements) in
        (Normal (),
         if hasNull elements then
           recordAll
             [console_error "Error parsing AI JSON instruction(s):" nullTypeError;
              showErrorMessage "AI provided malformed JSON instruction(s)."]
             batch
         else batch)
    | inr instruction =>
        (Normal (),
         exec (processInstruction_any host instruction)
           (record
              (showWarningMessage
                 "AI provided a single JSON object instead of an array for operations. Attempting to process as a single operation.")
              posted))
    end.
Proof.
  intros Hm Hne. unfold onResponse. rewrite bind_call.
  rewrite (jsonBlockRegex_group1 _ _ _ Hm), (truthy_Some _ Hne).
  cbv zeta. unfold tryCatch, parse, ToString. rewrite bind_run.
  destruct (JSON_parse interior) as [e | instruction].
  - simpl. same_world.
  - unfold mret, Js_ret. cbv iota beta.
    destruct instruction as [elements| | | | |]; try reflexivity.
    rewrite forOf_any_run. destruct (hasNull elements); [| done].
    same_world.
Qed.

(** *** The claims on the handler *)

(** C5, as amended.  When the first fenced json block of the response has
    a non-empty interior that [JSON.parse] rejects, the handler posts the
    response, logs the parse error and shows the malformed-instruction
    error; it dispatches no instruction and does not reach the code-block
    insertion. *)
Theorem malformed_json_reported text whole interior jsonError w :
  jsonBlockRegex text = Some [whole; interior] →
  interior ≠ EmptyString →
  JSON_parse interior = inl jsonError →
  onResponse host JSON_parse text w =
    (Normal (),
     recordAll
       [postMessage "response" text;
        console_error "Error parsing AI JSON instruction(s):" jsonError;
        showErrorMessage "AI provided malformed JSON instruction(s)."] w).
Proof.
  intros Hm Hne Hp. rewrite (onResponse_with_json _ _ _ _ Hm Hne), Hp.
  cbv zeta. same_world.
Qed.


(** C9. When the json block of the response decodes to a single object,
    the handler posts the response, warns that an object came instead of
    an array, and then runs the dispatcher once, on that object. *)
Theorem single_object_tolerated text whole interior instruction w :
  jsonBlockRegex text = Some [whole; interior] →
  interior ≠ EmptyString →
  JSON_parse interior = inr (JObject instruction) →
  onResponse host JSON_parse text w =
    (Normal (),
     exec (processInstruction host instruction)
       (recordAll
          [postMessage "response" text;
           showWarningMessage
             "AI provided a single JSON object instead of an array for operations. Attempting to process as a single operation."]
          w)).
Proof.
  intros Hm Hne Hp. rewrite (onResponse_with_json _ _ _ _ Hm Hne), Hp.
  cbv zeta. same_world.
Qed.

(** C2 (what the code does on a response with a generic fenced code block
    and no json block, an editor being active): the handler posts the
    response and stops.  The match array of the code-block expression has
    no capture, so the insertion and its info message are never reached. *)
Theorem code_block_not_inserted :
  let text :=
    "Here is the code:" +:+ LF +:+ "```javascript" +:+ LF
    +:+ "console.log(1);" +:+ LF +:+ "```" in
  let w := worldWith "/test/existing-file.js" "old content" in
  jsonBlockRegex text = None
  ∧ codeBlockRegex text
    = Some ["```javascript" +:+ LF +:+ "console.log(1);" +:+ LF +:+ "```"]
  ∧ is_Some (activeTextEditor w)
  ∧ onResponse host JSON_parse text w
    = (Normal (), recordAll [postMessage "response" text] w).
Proof.
  cbv zeta. split; [reflexivity |]. split; [reflexivity |].
  split; [by eexists |].
  by apply onResponse_without_json.
Qed.

End Handler.

(** ** The scenarios *)

(** the modifyFile instruction of the test suite, on a text with two
    occurrences: the first one is replaced *)
Lemma modifyFile_replaces_first_occurrence_witness :
  ∃ pre post,
    firstOccurrence "old content" "// old content, old content" pre post ∧
    processInstruction quietHost
      {[ "action" := "modifyFile"; "filePath" := "/test/existing-file.js";
         "oldString" := "old content"; "newString" := "new content" ]}
      (worldWith "/test/existing-file.js" "// old content, old content") =
      (Normal (),
       setText "/test/existing-file.js" (pre +:+ "new content" +:+ post)
         (recordAll
            [editor_edit (Uri_file "/test/existing-file.js")
               (replace (String.length pre)
                  (String.length pre + String.length "old content") "new content");
             showInformationMessage
               ("File " +:+ "/test/existing-file.js" +:+ " modified successfully.")]
            (shown (Uri_file "/test/existing-file.js")
               (worldWith "/test/existing-file.js" "// old content, old content")))).
Proof.
  apply (modifyFile_replaces_first_occurrence quietHost);
    [reflexivity | reflexivity | done | reflexivity | reflexivity | reflexivity
    | by exists "// ", ", old content" | reflexivity | reflexivity].
Defined.

Lemma modifyFile_not_found_witness :
  processInstruction quietHost
    {[ "action" := "modifyFile"; "filePath" := "/test/existing-file.js";
       "oldString" := "old content"; "newString" := "new content" ]}
    (worldWith "/test/existing-file.js" "file content") =
    (Normal (),
     recordAll
       [showWarningMessage
          "File modification failed: Could not find the specified oldString in /test/existing-file.js."]
       (shown (Uri_file "/test/existing-file.js")
          (worldWith "/test/existing-file.js" "file content")))
  ∧ ∃ pre post,
      firstOccurrence "old content" "old content" pre post ∧
      documents
        (exec (processInstruction quietHost
                 {[ "action" := "modifyFile"; "filePath" := "/test/existing-file.js";
                    "oldString" := "old content"; "newString" := "new content" ]})
           (worldWith "/test/existing-file.js" "old content"))
      !! "/test/existing-file.js" = Some (pre +:+ "new content" +:+ post).
Proof.
  split.
  - apply (modifyFile_not_found quietHost _ _ "/test/existing-file.js"
             "old content" "new content" "file content");
      [reflexivity | reflexivity | done | reflexivity | reflexivity | reflexivity
      | reflexivity | by apply indexOf_None].
  - destruct (modifyFile_not_found quietHost
                {[ "action" := "modifyFile";
                   "filePath" := "/test/existing-file.js";
                   "oldString" := "old content";
                   "newString" := "new content" ]}
                (worldWith "/test/existing-file.js" "old content")
                "/test/existing-file.js" "old content" "new content"
                "old content")
      as [_ Hsecond];
      [reflexivity | reflexivity | done | reflexivity | reflexivity | reflexivity
      | reflexivity |].
    destruct Hsecond as (pre & post & Hfirst & Hdoc & _);
      [by exists EmptyString, EmptyString | reflexivity |].
    by exists pre, post.
Defined.

Lemma deleteFile_dispatch_witness :
  processInstruction quietHost scenarioA freshWorld =
    (Normal (),
     recordAll
       [fs_delete (Uri_file "/test/file-to-delete.js");
        showInformationMessage "File /test/file-to-delete.js deleted successfully."]
       freshWorld).
Proof.
  apply (deleteFile_dispatch quietHost scenarioA freshWorld "/test/file-to-delete.js");
    [reflexivity | reflexivity | done | reflexivity].
Defined.

Lemma createFile_write_failure_witness :
  ∃ msg,
    processInstruction (rejectingHost eexist)
      {[ "action" := "createFile"; "filePath" := "/test/existing-file.js";
         "content" := "some content" ]} freshWorld =
      (Normal (),
       recordAll
         [fs_writeFile (Uri_file "/test/existing-file.js") (Buffer_from "some content");
          showErrorMessage msg] freshWorld)
    ∧ msg = "File creation failed: /test/existing-file.js already exists.".
Proof.
  destruct (createFile_write_failure (rejectingHost eexist)
              {[ "action" := "createFile"; "filePath" := "/test/existing-file.js";
                 "content" := "some content" ]} freshWorld
              "/test/existing-file.js" "some content" eexist)
    as (msg & Hrun & Hexist & _);
    [reflexivity | reflexivity | done | reflexivity | reflexivity |].
  exists msg. split; [exact Hrun | by apply Hexist].
Defined.

Lemma empty_string_field_is_missing_witness :
  processInstruction quietHost
    {[ "action" := "deleteFile"; "filePath" := EmptyString ]} freshWorld =
    (Normal (),
     recordAll [showWarningMessage "Delete file instruction missing filePath."]
       freshWorld)
  ∧ processInstruction quietHost
      (delete "filePath" {[ "action" := "deleteFile"; "filePath" := EmptyString ]})
      freshWorld =
    processInstruction quietHost
      {[ "action" := "deleteFile"; "filePath" := EmptyString ]} freshWorld.
Proof.
  apply (empty_string_field_is_missing quietHost _ freshWorld "deleteFile" "filePath");
    [constructor | reflexivity | reflexivity].
Defined.

(** a json block cut short *)
Lemma malformed_json_reported_witness :
  onResponse quietHost scenarioParser (jsonBlock "[{") freshWorld =
    (Normal (),
     recordAll
       [postMessage "response" (jsonBlock "[{");
        console_error "Error parsing AI JSON instruction(s):" syntaxError;
        showErrorMessage "AI provided malformed JSON instruction(s)."] freshWorld).
Proof.
  apply (malformed_json_reported quietHost scenarioParser (jsonBlock "[{")
           (jsonBlock "[{") "[{" syntaxError freshWorld);
    [reflexivity | done | reflexivity].
Defined.

(** C5, as stated, fails on a json block with an empty interior: the
    interior is matched by the expression and rejected by [JSON.parse],
    yet the test [jsonMatch && jsonMatch[1]] is false for the empty
    capture, so nothing is parsed and no error is shown. *)
Lemma malformed_empty_interior_unreported :
  jsonBlockRegex (jsonBlock EmptyString)
  = Some [jsonBlock EmptyString; EmptyString]
  ∧ scenarioParser EmptyString = inl syntaxError
  ∧ onResponse quietHost scenarioParser (jsonBlock EmptyString) freshWorld
    = (Normal (),
       recordAll [postMessage "response" (jsonBlock EmptyString)] freshWorld)
  ∧ ∀ msg,
      showErrorMessage msg
      ∉ calls (exec (onResponse quietHost scenarioParser (jsonBlock EmptyString))
                 freshWorld).
Proof.
  split; [reflexivity |]. split; [reflexivity |]. split; [reflexivity |].
  intros msg Hin. vm_compute in Hin.
  apply elem_of_cons in Hin as [Hin | Hin]; [done |].
  by apply elem_of_nil in Hin.
Qed.



Lemma single_object_tolerated_witness :
  calls (exec (onResponse quietHost scenarioParser (jsonBlock scenarioA_json))
           freshWorld) =
    [ postMessage "response" (jsonBlock scenarioA_json);
      showWarningMessage
        "AI provided a single JSON object instead of an array for operations. Attempting to process as a single operation.";
      fs_delete (Uri_file "/test/file-to-delete.js");
      showInformationMessage "File /test/file-to-delete.js deleted successfully." ].
Proof.
  unfold exec.
  rewrite (single_object_tolerated quietHost scenarioParser
             (jsonBlock scenarioA_json) (jsonBlock scenarioA_json)
             scenarioA_json scenarioA freshWorld eq_refl ltac:(done) eq_refl).
  reflexivity.
Defined.

(** ** The cases of the test suite, run on the model *)

Example test_deleteFile_missing_filePath :
  calls (exec (processInstruction quietHost {[ "action" := "deleteFile" ]}) freshWorld)
  = [showWarningMessage "Delete file instruction missing filePath."].
Proof. reflexivity. Qed.

Example test_renameFile :
  calls (exec (processInstruction quietHost
                 {[ "action" := "renameFile"; "oldPath" := "/test/old-name.js";
                    "newPath" := "/test/new-name.js" ]}) freshWorld)
  = [ fs_rename (Uri_file "/test/old-name.js") (Uri_file "/test/new-name.js");
      showInformationMessage
        "File /test/old-name.js renamed to /test/new-name.js successfully." ].
Proof. reflexivity. Qed.

(** scenario B *)
Example test_renameFile_missing_newPath :
  calls (exec (processInstruction quietHost
                 {[ "action" := "renameFile"; "oldPath" := "/test/old-name.js" ]})
           freshWorld)
  = [showWarningMessage "Rename file instruction missing oldPath or newPath."].
Proof. reflexivity. Qed.

(** scenario C *)
Example test_createFile :
  calls (exec (processInstruction quietHost
                 {[ "action" := "createFile"; "filePath" := "/test/new-file.js";
                    "content" := "console.log(1);" ]}) freshWorld)
  = [ fs_writeFile (Uri_file "/test/new-file.js") (Buffer_from "console.log(1);");
      showInformationMessage "File /test/new-file.js created successfully." ].
Proof. reflexivity. Qed.

Example test_createFile_empty_content :
  calls (exec (processInstruction quietHost
                 {[ "action" := "createFile"; "filePath" := "/test/new-file.js";
                    "content" := EmptyString ]}) freshWorld)
  = [ fs_writeFile (Uri_file "/test/new-file.js") [];
      showInformationMessage "File /test/new-file.js created successfully." ].
Proof. reflexivity. Qed.

Example test_modifyFile :
  let w := exec (processInstruction quietHost
                   {[ "action" := "modifyFile"; "filePath" := "/test/existing-file.js";
                      "oldString" := "old content"; "newString" := "new content" ]})
             (worldWith "/test/existing-file.js" "old content") in
  calls w
  = [ openTextDocument (Uri_file "/test/existing-file.js");
      showTextDocument (Uri_file "/test/existing-file.js");
      editor_edit (Uri_file "/test/existing-file.js") (replace 0 11 "new content");
      showInformationMessage "File /test/existing-file.js modified successfully." ]
  ∧ documents w !! "/test/existing-file.js" = Some "new content".
Proof. split; reflexivity. Qed.

(** the same instruction once more, on the text the first run left *)
Example test_modifyFile_twice :
  let instruction : gmap string string :=
    {[ "action" := "modifyFile"; "filePath" := "/test/existing-file.js";
       "oldString" := "old content"; "newString" := "new content" ]} in
  let w1 := exec (processInstruction quietHost instruction)
              (worldWith "/test/existing-file.js" "old content") in
  let w2 := exec (processInstruction quietHost instruction) w1 in
  documents w2 = documents w1
  ∧ skipn 4 (calls w2)
    = [ openTextDocument (Uri_file "/test/existing-file.js");
        showTextDocument (Uri_file "/test/existing-file.js");
        showWarningMessage
          "File modification failed: Could not find the specified oldString in /test/existing-file.js." ].
Proof. split; reflexivity. Qed.

Example test_modifyFile_open_rejected :
  calls (exec (processInstruction quietHost
                 {[ "action" := "modifyFile"; "filePath" := "/test/non-existent-file.js";
                    "oldString" := "old"; "newString" := "new" ]}) freshWorld)
  = [ openTextDocument (Uri_file "/test/non-existent-file.js");
      showErrorMessage "Error modifying file /test/non-existent-file.js: File not found" ].
Proof. reflexivity. Qed.

Example test_runShellCommand :
  calls (exec (processInstruction quietHost
                 {[ "action" := "runShellCommand"; "command" := "npm install some-package" ]})
           freshWorld)
  = [ createTerminal "Gemini Command";
      terminal_show;
      terminal_sendText "npm install some-package";
      showInformationMessage "Executing command: npm install some-package" ].
Proof. reflexivity. Qed.

Example test_runShellCommand_missing_command :
  calls (exec (processInstruction quietHost {[ "action" := "runShellCommand" ]}) freshWorld)
  = [showWarningMessage "Run shell command instruction missing command."].
Proof. reflexivity. Qed.

Example test_unrecognized_action :
  calls (exec (processInstruction quietHost
                 {[ "action" := "unrecognizedAction"; "filePath" := "/test/file.js" ]})
           freshWorld)
  = [showWarningMessage "AI provided an unrecognized or incomplete JSON instruction."].
Proof. reflexivity. Qed.

Example test_no_action :
  calls (exec (processInstruction quietHost {[ "filePath" := "/test/file.js" ]}) freshWorld)
  = [showWarningMessage "AI provided an unrecognized or incomplete JSON instruction."].
Proof. reflexivity. Qed.

(** the generation call rejected: the error goes to the chat only *)
Example test_generation_rejected :
  calls (exec (onPrompt
                 {| host_generateContent := λ _ _, inl denied;
                    host_delete := λ _ _, None;
                    host_rename := λ _ _ _, None;
                    host_writeFile := λ _ _ _, None;
                    host_openError := λ _ _, denied;
                    host_showTextDocument := λ _ _, None;
                    host_edit := λ _ _ _, inr true |}
                 scenarioParser "prompt") freshWorld)
  = [ generateContent "prompt";
      console_error "Error generating content or processing response:" denied;
      postMessage "response" "Error: Permission denied" ].
Proof. reflexivity. Qed.

(** only the first json block of a response is honoured *)
Example test_first_json_block :
  jsonBlockRegex (jsonBlock scenarioA_json +:+ LF +:+ jsonBlock scenarioD_json)
  = Some [jsonBlock scenarioA_json; scenarioA_json].
Proof. reflexivity. Qed.

(** * The rest of the dispatcher and of the handler *)

(** ** The remaining cases of [processInstruction] *)

Section DispatcherCases.

Context (host : Host).
Implicit Types (instruction : gmap string string) (w : World).

(** X1. A renameFile instruction whose oldPath and newPath pass the field
    test makes one rename call on the file store, from the Uri of oldPath to
    the Uri of newPath; when the host resolves it the only notification is
    the info message naming both paths, when the host rejects it the only
    notification is an error message naming both paths and carrying the
    message of the rejection. *)
Theorem renameFile_dispatch instruction w oldPath newPath :
  instruction !! "action" = Some "renameFile" →
  instruction !! "oldPath" = Some oldPath →
  oldPath ≠ EmptyString →
  instruction !! "newPath" = Some newPath →
  newPath ≠ EmptyString →
  processInstruction host instruction w =
    match host_rename host w (Uri_file oldPath) (Uri_file newPath) with
    | None =>
        (Normal (),
         recordAll
           [fs_rename (Uri_file oldPath) (Uri_file newPath);
            showInformationMessage
              ("File " +:+ oldPath +:+ " renamed to " +:+ newPath
               +:+ " successfully.")] w)
    | Some e =>
        (Normal (),
         recordAll
           [fs_rename (Uri_file oldPath) (Uri_file newPath);
            showErrorMessage
              ("Error renaming file from " +:+ oldPath +:+ " to " +:+ newPath
               +:+ ": " +:+ ToString (message e))] w)
    end.
Proof.
  intros Ha Ho Hone Hn Hnne. unfold processInstruction.
  rewrite Ha, Ho, Hn, !truthy_Some by done. simpl.
  unfold tryCatch, workspace_fs_rename. rewrite bind_run.
  destruct (host_rename host w _ _); simpl; same_world.
Qed.

(** X2. A createFile instruction whose filePath passes the field test and
    whose content is present, be it the empty string, with a host that
    resolves the write: the dispatcher writes the UTF-8 bytes of content to
    the Uri of filePath, once, and the only notification is the info message
    naming the file. *)
Theorem createFile_dispatch instruction w filePath content :
  instruction !! "action" = Some "createFile" →
  instruction !! "filePath" = Some filePath →
  filePath ≠ EmptyString →
  instruction !! "content" = Some content →
  host_writeFile host w (Uri_file filePath) (Buffer_from content) = None →
  processInstruction host instruction w =
    (Normal (),
     recordAll
       [fs_writeFile (Uri_file filePath) (Buffer_from content);
        showInformationMessage
          ("File " +:+ filePath +:+ " created successfully.")] w).
Proof.
  intros Ha Hf Hne Hc Hok. unfold processInstruction.
  rewrite Ha, Hf, Hc, (truthy_Some _ Hne). simpl.
  unfold tryCatch, workspace_fs_writeFile. rewrite bind_run, Hok. simpl.
  same_world.
Qed.

(** X3. A runShellCommand instruction whose command passes the field test
    creates a terminal named Gemini Command, shows it, sends it the command
    text and reports the info message naming the command, whatever the host
    answers elsewhere; it touches neither the file store nor a document. *)
Theorem runShellCommand_dispatch instruction w command :
  instruction !! "action" = Some "runShellCommand" →
  instruction !! "command" = Some command →
  command ≠ EmptyString →
  processInstruction host instruction w =
    (Normal (),
     recordAll
       [createTerminal "Gemini Command";
        terminal_show;
        terminal_sendText command;
        showInformationMessage ("Executing command: " +:+ command)] w).
Proof.
  intros Ha Hc Hne. unfold processInstruction.
  rewrite Ha, Hc, (truthy_Some _ Hne). simpl.
  rewrite !bind_call. same_world.
Qed.

(** X4. An instruction whose action is absent or is not one of the five
    recognized strings gets the generic warning and nothing else: no host
    call, whatever other fields it carries. *)
Theorem unrecognized_action_warning instruction w :
  (∀ action, instruction !! "action" = Some action → action ∉ recognizedActions) →
  processInstruction host instruction w =
    (Normal (),
     recordAll
       [showWarningMessage "AI provided an unrecognized or incomplete JSON instruction."]
       w).
Proof.
  intros Hnot.
  assert (∀ lit, lit ∈ recognizedActions →
                 strictEq (instruction !! "action") lit = false) as Hno.
  { intros lit Hin. unfold strictEq.
    destruct (instruction !! "action") as [a|] eqn:Ea; [| done].
    destruct (String.eqb_spec a lit) as [->|]; [| done].
    by destruct (Hnot _ eq_refl). }
  unfold processInstruction.
  rewrite !Hno by (unfold recognizedActions; set_solver).
  reflexivity.
Qed.

(** X5. A modifyFile instruction whose fields pass the test, when the
    document cannot be brought up: if the host cannot open it, the
    dispatcher stops after the open call; if the host opens it and rejects
    showing it, the dispatcher stops after the show call.  In both cases the
    only notification is the error message carrying the message of the
    rejection, no edit is attempted and no document changes. *)
Theorem modifyFile_document_unavailable
    instruction w filePath oldString newString :
  instruction !! "action" = Some "modifyFile" →
  instruction !! "filePath" = Some filePath →
  filePath ≠ EmptyString →
  instruction !! "oldString" = Some oldString →
  instruction !! "newString" = Some newString →
  (documents w !! filePath = None →
   processInstruction host instruction w =
     (Normal (),
      recordAll
        [openTextDocument (Uri_file filePath);
         showErrorMessage
           ("Error modifying file " +:+ filePath +:+ ": "
            +:+ ToString (message (host_openError host w (Uri_file filePath))))]
        w))
  ∧ (∀ e, is_Some (documents w !! filePath) →
          host_showTextDocument host (record (openTextDocument (Uri_file filePath)) w)
            (Uri_file filePath) = Some e →
          processInstruction host instruction w =
            (Normal (),
             recordAll
               [openTextDocument (Uri_file filePath);
                showTextDocument (Uri_file filePath);
                showErrorMessage
                  ("Error modifying file " +:+ filePath +:+ ": "
                   +:+ ToString (message e))]
               w)).
Proof.
  intros Ha Hf Hne Ho Hn. split.
  - intros Hdoc. unfold processInstruction.
    rewrite Ha, Hf, Ho, Hn, (truthy_Some _ Hne). simpl.
    unfold tryCatch. rewrite bind_run.
    unfold workspace_openTextDocument. simpl. rewrite Hdoc. same_world.
  - intros e [text Hdoc] Hshow. unfold processInstruction.
    rewrite Ha, Hf, Ho, Hn, (truthy_Some _ Hne). simpl.
    unfold tryCatch. rewrite bind_run.
    unfold workspace_openTextDocument. simpl. rewrite Hdoc.
    rewrite bind_run. unfold window_showTextDocument. rewrite Hshow. simpl.
    same_world.
Qed.

(** X6. A modifyFile instruction on a shown document that contains
    oldString, when the host does not apply the edit.  If [editor.edit]
    rejects, the only notification is the error message carrying the
    message of the rejection.  If it resolves with false, the dispatcher
    does not look at the result: it still reports the info message saying
    the file was modified.  In both cases the text of the document is what
    it was. *)
Theorem modifyFile_edit_not_applied
    instruction w filePath oldString newString text :
  instruction !! "action" = Some "modifyFile" →
  instruction !! "filePath" = Some filePath →
  filePath ≠ EmptyString →
  instruction !! "oldString" = Some oldString →
  instruction !! "newString" = Some newString →
  documents w !! filePath = Some text →
  occursIn oldString text →
  host_showTextDocument host (record (openTextDocument (Uri_file filePath)) w)
    (Uri_file filePath) = None →
  ∃ pre post,
    firstOccurrence oldString text pre post ∧
    (∀ e,
       host_edit host (shown (Uri_file filePath) w) (Uri_file filePath)
         (replace (String.length pre)
            (String.length pre + String.length oldString) newString) = inl e →
       processInstruction host instruction w =
         (Normal (),
          recordAll
            [editor_edit (Uri_file filePath)
               (replace (String.length pre)
                  (String.length pre + String.length oldString) newString);
             showErrorMessage
               ("Error modifying file " +:+ filePath +:+ ": "
                +:+ ToString (message e))]
            (shown (Uri_file filePath) w)))
    ∧ (host_edit host (shown (Uri_file filePath) w) (Uri_file filePath)
         (replace (String.length pre)
            (String.length pre + String.length oldString) newString) = inr false →
       processInstruction host instruction w =
         (Normal (),
          recordAll
            [editor_edit (Uri_file filePath)
               (replace (String.length pre)
                  (String.length pre + String.length oldString) newString);
             showInformationMessage
               ("File " +:+ filePath +:+ " modified successfully.")]
            (shown (Uri_file filePath) w))).
Proof.
  intros Ha Hf Hne Ho Hn Hdoc Hocc Hshow.
  destruct (indexOf_occursIn _ _ Hocc) as [i Ei].
  destruct (indexOf_Some _ _ _ Ei) as (pre & post & Hfirst & <-).
  exists pre, post. split; [done |].
  pose proof (modifyFile_run host _ _ _ _ _ _ Ha Hf Hne Ho Hn Hdoc Hshow) as Hrun.
  cbv zeta in Hrun. rewrite Ei in Hrun.
  split; [intros e Hedit | intros Hedit]; by rewrite Hedit in Hrun.
Qed.

(** X7. The empty string is found at index 0 of every text, so a modifyFile
    instruction with an empty oldString inserts newString in front of the
    text of the document and leaves the rest as it is. *)
Theorem modifyFile_empty_oldString instruction w filePath newString text :
  instruction !! "action" = Some "modifyFile" →
  instruction !! "filePath" = Some filePath →
  filePath ≠ EmptyString →
  instruction !! "oldString" = Some EmptyString →
  instruction !! "newString" = Some newString →
  documents w !! filePath = Some text →
  host_showTextDocument host (record (openTextDocument (Uri_file filePath)) w)
    (Uri_file filePath) = None →
  host_edit host (shown (Uri_file filePath) w) (Uri_file filePath)
    (replace 0 0 newString) = inr true →
  processInstruction host instruction w =
    (Normal (),
     setText filePath (newString +:+ text)
       (recordAll
          [editor_edit (Uri_file filePath) (replace 0 0 newString);
           showInformationMessage
             ("File " +:+ filePath +:+ " modified successfully.")]
          (shown (Uri_file filePath) w))).
Proof.
  intros Ha Hf Hne Ho Hn Hdoc Hshow Hedit.
  rewrite (modifyFile_run host _ _ _ _ _ _ Ha Hf Hne Ho Hn Hdoc Hshow).
  cbv zeta. assert (indexOf EmptyString text = Some 0) as -> by by destruct text.
  simpl String.length. rewrite Nat.add_0_r, Hedit.
  unfold applyEdit. by destruct text.
Qed.

(** *** What the dispatcher reads *)

(** X9. The dispatcher reads eight properties of the instruction and no
    other: two instructions that agree on them are dispatched alike, so
    fields the protocol does not know are ignored. *)
Theorem processInstruction_reads_fields instruction instruction' :
  (∀ field, field ∈ instructionFields → instruction !! field = instruction' !! field) →
  processInstruction host instruction = processInstruction host instruction'.
Proof.
  intros Hsame. unfold processInstruction.
  rewrite !(Hsame _) by (unfold instructionFields; set_solver).
  reflexivity.
Qed.

End DispatcherCases.

(** ** The two regular expressions *)

Section RegExpFacts.

Implicit Types s m rest close text pre post interior : string.

Lemma sliceFrom_app_le n s1 s2 :
  n ≤ String.length s1 → sliceFrom n (s1 +:+ s2) = sliceFrom n s1 +:+ s2.
Proof.
  revert s1. induction n as [|n IH]; intros s1 Hle; [done |].
  destruct s1 as [|c s1]; simpl in Hle; [lia |].
  rewrite append_cons. simpl. apply IH. lia.
Qed.

(** the lazy scan stops at the first place where [close] begins *)
Lemma lazyUntil_Some close s m rest :
  lazyUntil close s = Some (m, rest) →
  s = m +:+ close +:+ rest ∧ indexOf close s = Some (String.length m).
Proof.
  revert m rest. induction s as [|c s IH]; intros m rest.
  - simpl. destruct (startsWith close EmptyString) eqn:E; [| done].
    intros [= <- <-]. split; [| done].
    apply startsWith_true in E as [r E]. destruct close; [| done].
    by destruct r.
  - cbn [lazyUntil indexOf]. destruct (startsWith close (String c s)) eqn:E.
    + intros [= <- <-]. split; [| done].
      apply startsWith_true in E as [r E]. rewrite E.
      by rewrite sliceFrom_append.
    + destruct (lazyUntil close s) as [[m' rest']|] eqn:El; [| done].
      intros [= <- <-]. destruct (IH _ _ eq_refl) as [-> ->]. by split.
Qed.

Lemma lazyUntil_None close s :
  lazyUntil close s = None ↔ indexOf close s = None.
Proof.
  induction s as [|c s IH]; cbn [lazyUntil indexOf].
  - by destruct (startsWith close EmptyString).
  - destruct (startsWith close (String c s)); [done |].
    destruct (lazyUntil close s) as [[m r]|], (indexOf close s); simpl;
      split; try done; intros _.
    + destruct IH as [_ IH]. by specialize (IH eq_refl).
    + destruct IH as [IH _]. by specialize (IH eq_refl).
Qed.

Lemma lazyUntil_occursIn close s :
  occursIn close s → is_Some (lazyUntil close s).
Proof.
  intros Hocc. destruct (lazyUntil close s) eqn:E; [by eexists |].
  apply lazyUntil_None, indexOf_None in E. by destruct E.
Qed.

(** a leftmost search finds a match at a suffix, and nothing matches at the
    longer suffixes before it *)
Lemma search_leftmost matchAt s (found : MatchArray) :
  search matchAt s = Some found →
  ∃ pre s', s = pre +:+ s' ∧ matchAt s' = Some found
            ∧ ∀ pre1 pre2, pre = pre1 +:+ pre2 → pre2 ≠ EmptyString →
                           matchAt (pre2 +:+ s') = None.
Proof.
  induction s as [|c s IH]; simpl.
  - destruct (matchAt EmptyString) eqn:E; [| done]. intros [= <-].
    exists EmptyString, EmptyString. repeat split; [done |].
    intros [|] [|]; done.
  - destruct (matchAt (String c s)) eqn:E.
    + intros [= <-]. exists EmptyString, (String c s). repeat split; [done |].
      intros [|] [|]; done.
    + intros H. destruct (IH H) as (pre & s' & -> & Hm & Hleft).
      exists (String c pre), s'. repeat split; [done |].
      intros [|c1 pre1] pre2 Hpre Hne.
      * rewrite append_nil in Hpre. by subst pre2.
      * rewrite append_cons in Hpre. injection Hpre as -> ->.
        by apply (Hleft pre1).
Qed.

Lemma search_here matchAt s (found : MatchArray) :
  matchAt s = Some found → search matchAt s = Some found.
Proof. intros H. destruct s; simpl; by rewrite H. Qed.

Lemma search_finds matchAt pre s :
  is_Some (matchAt s) → is_Some (search matchAt (pre +:+ s)).
Proof.
  intros [found Hm]. induction pre as [|c pre IH].
  - rewrite append_nil. destruct s; simpl; rewrite Hm; eexists; reflexivity.
  - rewrite append_cons. simpl.
    destruct (matchAt (String c _)); [eexists; reflexivity | exact IH].
Qed.

(** [needle] is first found where no earlier suffix begins with it *)
Lemma indexOf_leftmost needle pre s :
  startsWith needle s = true →
  (∀ pre1 pre2, pre = pre1 +:+ pre2 → pre2 ≠ EmptyString →
                startsWith needle (pre2 +:+ s) = false) →
  indexOf needle (pre +:+ s) = Some (String.length pre).
Proof.
  intros Hs. induction pre as [|c pre IH]; intros Hleft.
  - rewrite append_nil. destruct s; simpl; by rewrite Hs.
  - rewrite append_cons. cbn [indexOf].
    rewrite <- append_cons, (Hleft EmptyString (String c pre)) by done.
    rewrite IH; [done |]. intros pre1 pre2 -> Hne.
    by apply (Hleft (String c pre1)).
Qed.

Lemma jsonBlockAt_Some s (found : MatchArray) :
  jsonBlockAt s = Some found →
  ∃ interior post,
    found = [jsonOpen +:+ interior +:+ jsonClose; interior]
    ∧ s = jsonOpen +:+ interior +:+ jsonClose +:+ post
    ∧ indexOf jsonClose (interior +:+ jsonClose +:+ post)
      = Some (String.length interior).
Proof.
  unfold jsonBlockAt. destruct (startsWith jsonOpen s) eqn:E; [| done].
  apply startsWith_true in E as [r ->]. rewrite sliceFrom_append.
  destruct (lazyUntil jsonClose r) as [[interior post]|] eqn:El; [| done].
  intros [= <-]. apply lazyUntil_Some in El as [-> Hi]. by exists interior, post.
Qed.

Lemma jsonBlockAt_block interior post :
  is_Some (jsonBlockAt (jsonOpen +:+ interior +:+ jsonClose +:+ post)).
Proof.
  unfold jsonBlockAt. rewrite startsWith_append, sliceFrom_append.
  destruct (lazyUntil_occursIn jsonClose (interior +:+ jsonClose +:+ post))
    as [[m r] ->]; [by exists interior, post |].
  eexists; reflexivity.
Qed.

Lemma jsonBlockRegex_Some text (found : MatchArray) :
  jsonBlockRegex text = Some found →
  ∃ pre interior post,
    found = [jsonOpen +:+ interior +:+ jsonClose; interior]
    ∧ text = pre +:+ jsonOpen +:+ interior +:+ jsonClose +:+ post.
Proof.
  intros H. apply search_leftmost in H as (pre & s & -> & Hat & _).
  destruct (jsonBlockAt_Some _ _ Hat) as (interior & post & -> & -> & _).
  by exists pre, interior, post.
Qed.

(** X10. What the json expression matches.  The match array is the block
    and its interior; the block is the one that starts at the first
    occurrence of the opening fence line in the text, and its interior ends
    at the first closing fence after that line: later blocks of the same
    response are not looked at. *)
Theorem jsonBlockRegex_first_block text (found : MatchArray) :
  jsonBlockRegex text = Some found →
  ∃ pre interior post,
    found = [jsonOpen +:+ interior +:+ jsonClose; interior]
    ∧ text = pre +:+ jsonOpen +:+ interior +:+ jsonClose +:+ post
    ∧ indexOf jsonOpen text = Some (String.length pre)
    ∧ indexOf jsonClose (interior +:+ jsonClose +:+ post)
      = Some (String.length interior).
Proof.
  intros H. apply search_leftmost in H as (pre & s & -> & Hat & Hleft).
  destruct (jsonBlockAt_Some _ _ Hat) as (interior & post & -> & -> & Hclose).
  exists pre, interior, post. repeat split; [| done].
  apply indexOf_leftmost; [apply startsWith_append |].
  intros pre1 pre2 -> Hne.
  destruct (startsWith jsonOpen (pre2 +:+ _)) eqn:E; [| done].
  specialize (Hleft pre1 pre2 eq_refl Hne). unfold jsonBlockAt in Hleft.
  rewrite E in Hleft.
  destruct (lazyUntil_occursIn jsonClose
              (sliceFrom (String.length jsonOpen)
                 (pre2 +:+ jsonOpen +:+ interior +:+ jsonClose +:+ post)))
    as [[m r] Hl]; [| by rewrite Hl in Hleft].
  rewrite <- (append_assoc pre2 jsonOpen), sliceFrom_app_le.
  - eexists _, post. unfold occursAt. by rewrite append_assoc.
  - rewrite length_append. destruct pre2; [done |]. simpl. lia.
Qed.

(** X11. The json expression finds a block whenever the text has one: it
    gives no match exactly when the text is nowhere an opening fence line,
    an interior and a closing fence. *)
Theorem jsonBlockRegex_no_block text :
  jsonBlockRegex text = None ↔
  ¬ ∃ pre interior post,
      text = pre +:+ jsonOpen +:+ interior +:+ jsonClose +:+ post.
Proof.
  split.
  - intros Hnone (pre & interior & post & ->).
    destruct (search_finds jsonBlockAt pre _ (jsonBlockAt_block interior post))
      as [found Hf].
    unfold jsonBlockRegex in Hnone. congruence.
  - intros Hno. destruct (jsonBlockRegex text) as [found|] eqn:E; [| done].
    destruct Hno. apply jsonBlockRegex_Some in E
      as (pre & interior & post & _ & ->).
    by exists pre, interior, post.
Qed.

Lemma jsonBlockAt_noBacktick c s :
  Ascii.eqb c "`"%char = false → jsonBlockAt (String c s) = None.
Proof.
  intros H. unfold jsonBlockAt.
  change jsonOpen with (String "`"%char (sliceFrom 1 jsonOpen)).
  cbn [startsWith]. rewrite Ascii.eqb_sym in H. by rewrite H.
Qed.

Lemma lazyUntil_here close s :
  startsWith close s = true →
  lazyUntil close s = Some (EmptyString, sliceFrom (String.length close) s).
Proof. intros H. destruct s; simpl; by rewrite H. Qed.

Lemma lazyUntil_noBacktick interior rest :
  noBacktick interior = true →
  lazyUntil jsonClose (interior +:+ jsonClose +:+ rest) = Some (interior, rest).
Proof.
  induction interior as [|c interior IH]; intros Hno.
  - rewrite append_nil, lazyUntil_here by apply startsWith_append.
    by rewrite sliceFrom_append.
  - simpl in Hno. apply andb_true_iff in Hno as [Hc Hno].
    apply negb_true_iff in Hc.
    rewrite append_cons. cbn [lazyUntil]. rewrite (IH Hno).
    assert (startsWith jsonClose (String c (interior +:+ jsonClose +:+ rest)) = false)
      as ->; [| done].
    change jsonClose with (String "010"%char (String "`"%char (sliceFrom 2 jsonClose))).
    cbn [startsWith]. destruct (Ascii.eqb "010" c); [| done].
    destruct interior as [|c2 interior]; [done |].
    simpl in Hno. apply andb_true_iff in Hno as [Hc2 _].
    apply negb_true_iff in Hc2. rewrite append_cons.
    rewrite Ascii.eqb_sym in Hc2. by rewrite Hc2.
Qed.

(** X12. Extraction undoes fencing.  When the text before a json block and
    the interior of the block have no backtick, the expression captures
    that interior, whatever follows the block. *)
Theorem jsonBlockRegex_jsonBlock pre interior rest :
  noBacktick pre = true →
  noBacktick interior = true →
  jsonBlockRegex (pre +:+ jsonBlock interior +:+ rest)
  = Some [jsonBlock interior; interior].
Proof.
  intros Hpre Hint. unfold jsonBlockRegex.
  induction pre as [|c pre IH].
  - rewrite append_nil. unfold jsonBlock. rewrite !append_assoc.
    assert (jsonBlockAt (jsonOpen +:+ interior +:+ jsonClose +:+ rest)
            = Some [jsonOpen +:+ interior +:+ jsonClose; interior]) as Hat.
    { unfold jsonBlockAt.
      by rewrite startsWith_append, sliceFrom_append, lazyUntil_noBacktick. }
    by apply search_here.
  - simpl in Hpre. apply andb_true_iff in Hpre as [Hc Hpre].
    apply negb_true_iff in Hc.
    rewrite append_cons. cbn [search].
    rewrite (jsonBlockAt_noBacktick _ _ Hc). by apply IH.
Qed.

Lemma spanWord_append s w after : spanWord s = (w, after) → s = w +:+ after.
Proof.
  revert w after. induction s as [|c s IH]; intros w after; simpl.
  - by intros [= <- <-].
  - destruct (isWordChar c); [| by intros [= <- <-]].
    destruct (spanWord s) as [w' after']. intros [= <- <-].
    by rewrite (IH _ _ eq_refl).
Qed.

Lemma codeBlockAt_Some s (found : MatchArray) :
  codeBlockAt s = Some found →
  ∃ body post,
    found = [fence +:+ body +:+ fence] ∧ s = fence +:+ body +:+ fence +:+ post.
Proof.
  unfold codeBlockAt. destruct (startsWith fence s) eqn:E; [| done].
  apply startsWith_true in E as [r ->]. rewrite sliceFrom_append.
  destruct (spanWord r) as [w after] eqn:Ew. apply spanWord_append in Ew as ->.
  assert (∀ m rest, lazyUntil fence (w +:+ after) = Some (m, rest) →
                    ∃ body post,
                      [fence +:+ m +:+ fence] = [fence +:+ body +:+ fence]
                      ∧ fence +:+ w +:+ after = fence +:+ body +:+ fence +:+ post)
    as Hplain.
  { intros m rest Hl. apply lazyUntil_Some in Hl as [-> _]. by exists m, rest. }
  destruct w as [|c w].
  - destruct (lazyUntil fence _) as [[m rest]|] eqn:El; [| done].
    intros [= <-]. by eapply Hplain.
  - destruct (startsWith LF after) eqn:Enl.
    + apply startsWith_true in Enl as [a2 ->].
      change (sliceFrom 1 (LF +:+ a2)) with a2.
      destruct (lazyUntil fence a2) as [[m rest]|] eqn:El.
      * intros [= <-]. apply lazyUntil_Some in El as [-> _].
        exists (String c w +:+ LF +:+ m), rest. split.
        -- by rewrite !append_assoc.
        -- by rewrite !append_assoc.
      * destruct (lazyUntil fence _) as [[m rest]|] eqn:El2; [| done].
        intros [= <-]. by eapply Hplain.
    + destruct (lazyUntil fence _) as [[m rest]|] eqn:El; [| done].
      intros [= <-]. by eapply Hplain.
Qed.

Lemma codeBlockAt_block body post :
  is_Some (codeBlockAt (fence +:+ body +:+ fence +:+ post)).
Proof.
  unfold codeBlockAt. rewrite startsWith_append, sliceFrom_append.
  destruct (spanWord _) as [w after].
  destruct (lazyUntil_occursIn fence (body +:+ fence +:+ post))
    as [[m r] ->]; [by exists body, post |].
  repeat case_match; eexists; reflexivity.
Qed.

(** X13. What the code-block expression matches.  It matches exactly when
    the text has an opening fence and a later closing fence, and its match
    array is then the fenced text alone: there is no element 1, the
    expression having no capturing group. *)
Theorem codeBlockRegex_match text :
  (is_Some (codeBlockRegex text) ↔
   ∃ pre body post, text = pre +:+ fence +:+ body +:+ fence +:+ post)
  ∧ ∀ found : MatchArray,
      codeBlockRegex text = Some found →
      found !! 1 = None
      ∧ ∃ pre body post,
          found = [fence +:+ body +:+ fence]
          ∧ text = pre +:+ fence +:+ body +:+ fence +:+ post.
Proof.
  assert (∀ found : MatchArray,
            codeBlockRegex text = Some found →
            ∃ pre body post,
              found = [fence +:+ body +:+ fence]
              ∧ text = pre +:+ fence +:+ body +:+ fence +:+ post) as Hshape.
  { intros found H. apply search_leftmost in H as (pre & s & -> & Hat & _).
    destruct (codeBlockAt_Some _ _ Hat) as (body & post & -> & ->).
    by exists pre, body, post. }
  split; [split |].
  - intros [found H]. destruct (Hshape _ H) as (pre & body & post & _ & ->).
    by exists pre, body, post.
  - intros (pre & body & post & ->).
    apply search_finds, codeBlockAt_block.
  - intros found H. destruct (Hshape _ H) as (pre & body & post & -> & ->).
    split; [done |]. by exists pre, body, post.
Qed.

End RegExpFacts.

(** ** The handler as a whole *)

Section HandlerCases.

Context (host : Host) (JSON_parse : string → JsError + Payload).
Implicit Types (text whole interior : string) (w : World).

Lemma onResponse_returns text w :
  completion (onResponse host JSON_parse text) w = Normal ().
Proof.
  unfold onResponse, completion. rewrite bind_call.
  destruct (truthy (group1 (jsonBlockRegex text))).
  - apply tryCatch_returns. intros e w'. reflexivity.
  - by rewrite codeBlockRegex_group1.
Qed.

(** X15. The prompt handler.  When the generation call is rejected, the
    handler logs the error and posts Error: and its message to the chat; it
    shows no notification and dispatches nothing.  When the call resolves,
    the handler does what the processing of the response text does, and no
    failure in that processing reaches the handler's catch. *)
Theorem onPrompt_run fullPrompt w :
  onPrompt host JSON_parse fullPrompt w =
    match host_generateContent host w fullPrompt with
    | inl error =>
        (Normal (),
         recordAll
           [generateContent fullPrompt;
            console_error "Error generating content or processing response:" error;
            postMessage "response" ("Error: " +:+ ToString (message error))] w)
    | inr text =>
        onResponse host JSON_parse text (record (generateContent fullPrompt) w)
    end.
Proof.
  unfold onPrompt, tryCatch. rewrite bind_run. unfold model_generateContent.
  destruct (host_generateContent host w fullPrompt) as [error | text].
  - same_world.
  - pose proof (onResponse_returns text (record (generateContent fullPrompt) w)) as H.
    unfold completion in H.
    destruct (onResponse host JSON_parse text _) as [r w']. simpl in H. by subst r.
Qed.

(** *** Batches *)






(** *** The code-insertion branch *)

Lemma processInstruction_no_insertion instruction w :
  ∃ cs,
    calls (exec (processInstruction host instruction) w) = calls w ++ cs
    ∧ Forall (λ c, insertionCall c = false) cs.
Proof.
  unfold exec, processInstruction, tryCatch, workspace_fs_delete,
    workspace_fs_rename, workspace_fs_writeFile, workspace_openTextDocument,
    window_showTextDocument, positionAt, getText, edit, settle, throw, call,
    mbind, mret, Js_bind, Js_ret.
  repeat case_match; simplify_eq; simpl; rewrite <- ?app_assoc.
  all: try (eexists; split; [reflexivity | by repeat constructor]).
  all: exists []; split; [by rewrite app_nil_r | constructor].
Qed.

Lemma processInstruction_any_no_insertion (instruction : Payload) w :
  ∃ cs,
    calls (exec (processInstruction_any host instruction) w) = calls w ++ cs
    ∧ Forall (λ c, insertionCall c = false) cs.
Proof.
  destruct instruction; try apply processInstruction_no_insertion.
  exists []. split; [by rewrite app_nil_r | constructor].
Qed.

Lemma forOf_no_insertion (elements : list Payload) w :
  ∃ cs,
    calls (foldl (λ w' element, exec (processInstruction_any host element) w')
             w elements) = calls w ++ cs
    ∧ Forall (λ c, insertionCall c = false) cs.
Proof.
  revert w. induction elements as [|element l IH]; intros w.
  - exists []. split; [by rewrite app_nil_r | constructor].
  - simpl foldl. destruct (IH (exec (processInstruction_any host element) w))
      as (cs' & Hcalls & Hnone).
    destruct (processInstruction_any_no_insertion element w) as (cs1 & H1 & Hnone1).
    exists (cs1 ++ cs'). split.
    + by rewrite Hcalls, H1, app_assoc.
    + by apply Forall_app.
Qed.

(** X17. The response is always posted, code is never inserted.  For every
    response text, host and world, the first call the handler adds is the
    post of the full response to the chat, and none of the calls after it is
    one of the insertion branch: no insert edit, no Code inserted message,
    no No active text editor warning. *)
Theorem onResponse_never_inserts text w :
  ∃ cs,
    calls (exec (onResponse host JSON_parse text) w)
    = calls w ++ postMessage "response" text :: cs
    ∧ Forall (λ c, insertionCall c = false) cs.
Proof.
  destruct (truthy (group1 (jsonBlockRegex text))) eqn:Et.
  - destruct (jsonBlockRegex text) as [found|] eqn:Em; [| done].
    destruct (jsonBlockRegex_Some _ _ Em) as (pre & interior & post & -> & _).
    assert (interior ≠ EmptyString) as Hne by (by intros ->).
    unfold exec. rewrite (onResponse_with_json _ _ _ _ _ _ Em Hne). cbv zeta.
    assert (∀ instruction,
              ∃ cs,
                calls (exec (processInstruction_any host instruction)
                         (record
                            (showWarningMessage
                               "AI provided a single JSON object instead of an array for operations. Attempting to process as a single operation.")
                            (record (postMessage "response" text) w)))
                = calls w ++ postMessage "response" text :: cs
                ∧ Forall (λ c, insertionCall c = false) cs) as Hsingle.
    { intros instruction.
      destruct (processInstruction_any_no_insertion instruction
                  (record
                     (showWarningMessage
                        "AI provided a single JSON object instead of an array for operations. Attempting to process as a single operation.")
                     (record (postMessage "response" text) w)))
        as (cs & Hcalls & Hnone).
      eexists (_ :: cs). split.
      - rewrite Hcalls. simpl. by rewrite <- !app_assoc.
      - by constructor. }
    destruct (JSON_parse interior) as [e | [elements | o | s | n | b |]];
      try apply Hsingle.
    + eexists. split; [simpl; by rewrite <- app_assoc | by repeat constructor].
    + destruct (forOf_no_insertion (untilNull elements)
                  (record (postMessage "response" text) w))
        as (cs & Hcalls & Hnone).
      destruct (hasNull elements).
      * eexists (cs ++ [_; _]). split.
        -- simpl. rewrite Hcalls. simpl. by rewrite <- !app_assoc.
        -- apply Forall_app. split; [done | by repeat constructor].
      * exists cs. split; [| done]. simpl. rewrite Hcalls. simpl.
        by rewrite <- app_assoc.
  - unfold exec. rewrite (onResponse_without_json _ _ _ _ Et).
    exists []. split; [done | constructor].
Qed.

(** *** Line ends *)

Lemma noBacktick_append s1 s2 :
  noBacktick (s1 +:+ s2) = noBacktick s1 && noBacktick s2.
Proof.
  induction s1 as [|c s1 IH]; [done |].
  rewrite append_cons. simpl. by rewrite IH, andb_assoc.
Qed.

Lemma search_skip_noBacktick s t :
  noBacktick s = true →
  search jsonBlockAt (s +:+ t) = search jsonBlockAt t.
Proof.
  induction s as [|c s IH]; [done |]. intros Hno.
  cbn [noBacktick] in Hno. apply andb_true_iff in Hno as [Hc Hs].
  apply negb_true_iff in Hc. rewrite append_cons. cbn [search].
  rewrite (jsonBlockAt_noBacktick _ _ Hc). by apply IH.
Qed.

(** X20. The json expression wants line feeds.  A json block whose lines
    end in carriage return and line feed is not matched, so for a response
    that is such a block the handler posts the response and does nothing
    else: nothing is parsed, nothing dispatched, no error shown. *)
Theorem crlf_block_not_extracted interior w :
  noBacktick interior = true →
  jsonBlockRegex (jsonBlockCRLF interior) = None
  ∧ onResponse host JSON_parse (jsonBlockCRLF interior) w
    = (Normal (), recordAll [postMessage "response" (jsonBlockCRLF interior)] w).
Proof.
  intros Hno.
  assert (jsonBlockRegex (jsonBlockCRLF interior) = None) as Hnone.
  { unfold jsonBlockRegex, jsonBlockCRLF.
    change ("```json" +:+ CRLF +:+ interior +:+ CRLF +:+ "```")
      with (String "`" (String "`" (String "`"
              (("json" +:+ CRLF) +:+ interior +:+ CRLF +:+ "```")))).
    do 3 (cbn [search];
          match goal with
          | |- context [jsonBlockAt ?s] =>
              change (jsonBlockAt s) with (@None MatchArray)
          end).
    rewrite <- !append_assoc.
    rewrite search_skip_noBacktick; [reflexivity |].
    rewrite !noBacktick_append, Hno. reflexivity. }
  split; [done |].
  apply onResponse_without_json. by rewrite Hnone.
Qed.

End HandlerCases.

(** ** Undoing a modifyFile *)

Section Undo.

Context (host : Host).
Implicit Types (instruction undo : gmap string string) (w : World).

Lemma firstOccurrence_indexOf needle hay pre post :
  firstOccurrence needle hay pre post →
  indexOf needle hay = Some (String.length pre).
Proof.
  intros [Hocc Hmin].
  destruct (indexOf_occursIn needle hay) as [i Ei]; [by exists pre, post |].
  destruct (indexOf_Some _ _ _ Ei) as (pre' & post' & [Hocc' Hmin'] & <-).
  specialize (Hmin _ _ Hocc'). specialize (Hmin' _ _ Hocc).
  rewrite Ei. f_equal. lia.
Qed.

(** X18. Swapping oldString and newString undoes a modifyFile.  When the
    first instruction replaced the first occurrence of oldString and the
    newString it put in is the first occurrence of newString in the new
    text, dispatching the swapped instruction next restores every document
    to the text it had. *)
Theorem modifyFile_undo
    instruction undo w filePath oldString newString text pre post :
  instruction !! "action" = Some "modifyFile" →
  instruction !! "filePath" = Some filePath →
  instruction !! "oldString" = Some oldString →
  instruction !! "newString" = Some newString →
  undo !! "action" = Some "modifyFile" →
  undo !! "filePath" = Some filePath →
  undo !! "oldString" = Some newString →
  undo !! "newString" = Some oldString →
  filePath ≠ EmptyString →
  documents w !! filePath = Some text →
  firstOccurrence oldString text pre post →
  firstOccurrence newString (pre +:+ newString +:+ post) pre post →
  (∀ w', host_showTextDocument host w' (Uri_file filePath) = None) →
  (∀ w' change, host_edit host w' (Uri_file filePath) change = inr true) →
  documents (exec (processInstruction host undo)
               (exec (processInstruction host instruction) w))
  = documents w.
Proof.
  intros Ha Hf Ho Hn Ha' Hf' Ho' Hn' Hne Hdoc Hfirst Hfirst' Hshow Hedit.
  assert (∀ i w0 a b t p q,
            i !! "action" = Some "modifyFile" → i !! "filePath" = Some filePath →
            i !! "oldString" = Some a → i !! "newString" = Some b →
            documents w0 !! filePath = Some t → firstOccurrence a t p q →
            documents (exec (processInstruction host i) w0)
            = <[filePath := p +:+ b +:+ q]> (documents w0)) as Hstep.
  { intros i w0 a b t p q Hia Hif Hio Hin Hd Hfo. unfold exec.
    rewrite (modifyFile_run host _ _ _ _ _ _ Hia Hif Hne Hio Hin Hd (Hshow _)).
    cbv zeta. rewrite (firstOccurrence_indexOf _ _ _ _ Hfo), Hedit.
    by rewrite (applyEdit_replace_occurrence _ _ _ _ _ (proj1 Hfo)). }
  rewrite (Hstep undo _ newString oldString (pre +:+ newString +:+ post) pre post);
    try done.
  - rewrite (Hstep instruction w oldString newString text pre post); try done.
    rewrite insert_insert_eq. apply insert_id.
    destruct Hfirst as [Hocc _]. unfold occursAt in Hocc. by rewrite <- Hocc.
  - rewrite (Hstep instruction w oldString newString text pre post); try done.
    apply lookup_insert_eq.
Qed.

End Undo.

(** ** The path module of the test setup *)

Section PathMockFacts.

Import PathMock.

Lemma append_empty_r s : s +:+ EmptyString = s.
Proof.
  induction s as [|c s IH]; [done |].
  by rewrite append_cons, IH.
Qed.

Lemma indexOf_startsWith needle hay :
  startsWith needle hay = true → indexOf needle hay = Some 0.
Proof. intros H. destruct hay; simpl; by rewrite H. Qed.

(** X19. In the test setup, [relative] undoes [join]: for every root and
    every list of segments, the path of the segments joined below the root,
    taken relative to the root, is the segments joined. *)
Theorem relative_join root (segments : list string) :
  relative root (join (root :: segments)) = join segments.
Proof.
  unfold relative, removeFirst.
  destruct segments as [|a rest].
  - simpl join. rewrite indexOf_startsWith.
    + simpl. rewrite <- (append_empty_r root) at 2.
      rewrite sliceFrom_append. reflexivity.
    + rewrite <- (append_empty_r root) at 2. apply startsWith_append.
  - change (join (root :: a :: rest)) with (root +:+ "/" +:+ join (a :: rest)).
    rewrite indexOf_startsWith by apply startsWith_append.
    simpl. by rewrite sliceFrom_append.
Qed.

End PathMockFacts.

(** ** Runs of the further properties *)

Lemma firstOccurrence_of_indexOf needle pre post :
  indexOf needle (pre +:+ needle +:+ post) = Some (String.length pre) →
  firstOccurrence needle (pre +:+ needle +:+ post) pre post.
Proof.
  intros Hi. split; [done |]. intros pre' post' Hocc'.
  destruct (indexOf_Some _ _ _ Hi) as (pre0 & post0 & [_ Hmin] & Hlen).
  specialize (Hmin _ _ Hocc'). lia.
Qed.

Lemma renameFile_dispatch_witness :
  processInstruction quietHost
    {[ "action" := "renameFile"; "oldPath" := "/test/old-name.js";
       "newPath" := "/test/new-name.js" ]} freshWorld =
    (Normal (),
     recordAll
       [fs_rename (Uri_file "/test/old-name.js") (Uri_file "/test/new-name.js");
        showInformationMessage
          "File /test/old-name.js renamed to /test/new-name.js successfully."]
       freshWorld).
Proof.
  apply (renameFile_dispatch quietHost _ freshWorld "/test/old-name.js"
           "/test/new-name.js");
    [reflexivity | reflexivity | done | reflexivity | done].
Defined.

(** an empty content is a content *)
Lemma createFile_dispatch_witness :
  processInstruction quietHost
    {[ "action" := "createFile"; "filePath" := "/test/new-file.js";
       "content" := EmptyString ]} freshWorld =
    (Normal (),
     recordAll
       [fs_writeFile (Uri_file "/test/new-file.js") [];
        showInformationMessage "File /test/new-file.js created successfully."]
       freshWorld).
Proof.
  apply (createFile_dispatch quietHost _ freshWorld "/test/new-file.js" EmptyString);
    [reflexivity | reflexivity | done | reflexivity | reflexivity].
Defined.

Lemma runShellCommand_dispatch_witness :
  processInstruction (rejectingHost denied)
    {[ "action" := "runShellCommand"; "command" := "npm install some-package" ]}
    freshWorld =
    (Normal (),
     recordAll
       [createTerminal "Gemini Command";
        terminal_show;
        terminal_sendText "npm install some-package";
        showInformationMessage "Executing command: npm install some-package"]
       freshWorld).
Proof.
  apply (runShellCommand_dispatch (rejectingHost denied) _ freshWorld
           "npm install some-package");
    [reflexivity | reflexivity | done].
Defined.

Lemma unrecognized_action_warning_witness :
  processInstruction quietHost
    {[ "action" := "unrecognizedAction"; "filePath" := "/test/file.js" ]}
    freshWorld =
    (Normal (),
     recordAll
       [showWarningMessage "AI provided an unrecognized or incomplete JSON instruction."]
       freshWorld).
Proof.
  apply (unrecognized_action_warning quietHost).
  intros action Ha Hin. vm_compute in Ha. injection Ha as <-.
  unfold recognizedActions in Hin.
  repeat (apply elem_of_cons in Hin as [Hin | Hin]; [done |]).
  by apply elem_of_nil in Hin.
Defined.

Lemma modifyFile_document_unavailable_witness :
  processInstruction quietHost
    {[ "action" := "modifyFile"; "filePath" := "/test/non-existent-file.js";
       "oldString" := "old"; "newString" := "new" ]} freshWorld =
    (Normal (),
     recordAll
       [openTextDocument (Uri_file "/test/non-existent-file.js");
        showErrorMessage
          "Error modifying file /test/non-existent-file.js: File not found"]
       freshWorld).
Proof.
  apply (modifyFile_document_unavailable quietHost _ freshWorld
           "/test/non-existent-file.js" "old" "new");
    [reflexivity | reflexivity | done | reflexivity | reflexivity | reflexivity].
Defined.

(** the editor resolves the edit with false: the text stays, the info
    message is shown all the same *)
Lemma modifyFile_edit_not_applied_witness :
  processInstruction refusingHost
    {[ "action" := "modifyFile"; "filePath" := "/test/existing-file.js";
       "oldString" := "old content"; "newString" := "new content" ]}
    (worldWith "/test/existing-file.js" "old content") =
    (Normal (),
     recordAll
       [editor_edit (Uri_file "/test/existing-file.js")
          (replace 0 11 "new content");
        showInformationMessage "File /test/existing-file.js modified successfully."]
       (shown (Uri_file "/test/existing-file.js")
          (worldWith "/test/existing-file.js" "old content"))).
Proof.
  destruct (modifyFile_edit_not_applied refusingHost
              {[ "action" := "modifyFile"; "filePath" := "/test/existing-file.js";
                 "oldString" := "old content"; "newString" := "new content" ]}
              (worldWith "/test/existing-file.js" "old content")
              "/test/existing-file.js" "old content" "new content" "old content")
    as (pre & post & Hfirst & _ & Hfalse);
    [reflexivity | reflexivity | done | reflexivity | reflexivity | reflexivity
    | by exists EmptyString, EmptyString | reflexivity |].
  rewrite Hfalse; [| reflexivity].
  destruct Hfirst as [Hocc Hmin].
  specialize (Hmin EmptyString EmptyString eq_refl). simpl in Hmin.
  destruct pre; [reflexivity | simpl in Hmin; lia].
Defined.

Lemma modifyFile_empty_oldString_witness :
  processInstruction quietHost
    {[ "action" := "modifyFile"; "filePath" := "/test/existing-file.js";
       "oldString" := EmptyString; "newString" := "// header " ]}
    (worldWith "/test/existing-file.js" "file content") =
    (Normal (),
     setText "/test/existing-file.js" "// header file content"
       (recordAll
          [editor_edit (Uri_file "/test/existing-file.js")
             (replace 0 0 "// header ");
           showInformationMessage "File /test/existing-file.js modified successfully."]
          (shown (Uri_file "/test/existing-file.js")
             (worldWith "/test/existing-file.js" "file content")))).
Proof.
  apply (modifyFile_empty_oldString quietHost _ _ "/test/existing-file.js"
           "// header " "file content");
    [reflexivity | reflexivity | done | reflexivity | reflexivity | reflexivity
    | reflexivity | reflexivity].
Defined.

(** a field the protocol does not know *)
Lemma processInstruction_reads_fields_witness :
  processInstruction quietHost (<[ "comment" := "please" ]> scenarioA)
  = processInstruction quietHost scenarioA.
Proof.
  apply (processInstruction_reads_fields quietHost).
  intros field Hin. unfold instructionFields in Hin.
  repeat (apply elem_of_cons in Hin as [-> | Hin]; [reflexivity |]).
  by apply elem_of_nil in Hin.
Defined.

(** two json blocks: the first is the match *)
Lemma jsonBlockRegex_first_block_witness :
  ∃ pre interior post,
    [jsonBlock scenarioA_json; scenarioA_json]
    = [jsonOpen +:+ interior +:+ jsonClose; interior]
    ∧ jsonBlock scenarioA_json +:+ LF +:+ jsonBlock scenarioD_json
      = pre +:+ jsonOpen +:+ interior +:+ jsonClose +:+ post
    ∧ indexOf jsonOpen (jsonBlock scenarioA_json +:+ LF +:+ jsonBlock scenarioD_json)
      = Some (String.length pre)
    ∧ indexOf jsonClose (interior +:+ jsonClose +:+ post)
      = Some (String.length interior).
Proof.
  apply (jsonBlockRegex_first_block
           (jsonBlock scenarioA_json +:+ LF +:+ jsonBlock scenarioD_json)
           [jsonBlock scenarioA_json; scenarioA_json]).
  reflexivity.
Defined.

Lemma jsonBlockRegex_jsonBlock_witness :
  jsonBlockRegex
    (("Here you go:" +:+ LF) +:+ jsonBlock scenarioA_json
     +:+ (LF +:+ jsonBlock scenarioD_json))
  = Some [jsonBlock scenarioA_json; scenarioA_json].
Proof.
  apply (jsonBlockRegex_jsonBlock ("Here you go:" +:+ LF) scenarioA_json
           (LF +:+ jsonBlock scenarioD_json));
    reflexivity.
Defined.


Lemma crlf_block_not_extracted_witness :
  jsonBlockRegex (jsonBlockCRLF scenarioD_json) = None
  ∧ onResponse quietHost scenarioParser (jsonBlockCRLF scenarioD_json) freshWorld
    = (Normal (),
       recordAll [postMessage "response" (jsonBlockCRLF scenarioD_json)] freshWorld).
Proof.
  apply (crlf_block_not_extracted quietHost scenarioParser scenarioD_json freshWorld).
  reflexivity.
Defined.

Lemma modifyFile_undo_witness :
  documents
    (exec (processInstruction quietHost
             {[ "action" := "modifyFile"; "filePath" := "/test/existing-file.js";
                "oldString" := "counter"; "newString" := "x" ]})
       (exec (processInstruction quietHost
                {[ "action" := "modifyFile"; "filePath" := "/test/existing-file.js";
                   "oldString" := "x"; "newString" := "counter" ]})
          (worldWith "/test/existing-file.js" "let x = 1;")))
  = documents (worldWith "/test/existing-file.js" "let x = 1;").
Proof.
  apply (modifyFile_undo quietHost _ _ _ "/test/existing-file.js" "x" "counter"
           "let x = 1;" "let " " = 1;");
    [reflexivity | reflexivity | reflexivity | reflexivity | reflexivity
    | reflexivity | reflexivity | reflexivity | done | reflexivity
    | exact (firstOccurrence_of_indexOf "x" "let " " = 1;" eq_refl)
    | exact (firstOccurrence_of_indexOf "counter" "let " " = 1;" eq_refl)
    | reflexivity | reflexivity].
Defined.
